(** * The Boundary auth method resource: a shallow embedding

    Source: internal/provider/resource_auth_method.go.

    The resource callbacks work on three kinds of data: dynamically typed Go
    values (the [interface{}] values of the decoded JSON response and of the
    host's field accessors), the host's resource data (prior state, planned
    values, values written during the call) and the options handed to the
    remote auth method client.  Unchecked Go type assertions [x.(T)] abort the
    call with a run-time panic; this is modelled by the result type [Res]. *)

From Stdlib Require Import ZArith List String Ascii Bool Lia.
From Stdlib Require Decimal DecimalString DecimalPos DecimalZ.
From stdpp Require Import base option list strings gmap.
Import ListNotations.

Local Open Scope string_scope.
Local Open Scope list_scope.

(** ** Go values *)

(** A value held in an [interface{}]. [VNumber] is a [json.Number] (the
    decimal text of a JSON number), [VInt] a Go [int] or [int64], [VStrings]
    a [[]string], [VList] a [[]interface{}] and [VMap] a
    [map[string]interface{}] kept as an association list read by its first
    matching entry. *)
#[warnings="-register-all"]
Inductive Value : Type :=
| VNil
| VString (s : string)
| VNumber (n : string)
| VInt (i : Z)
| VBool (b : bool)
| VStrings (l : list string)
| VList (l : list Value)
| VMap (m : list (string * Value)).

Abbreviation GoMap := (list (string * Value)).

(** [m[k]] with the comma-ok form: the value and whether the key is there. *)
Fixpoint map_lookup (m : GoMap) (k : string) : option Value :=
  match m with
  | [] => None
  | (k', v) :: m' => if String.eqb k' k then Some v else map_lookup m' k
  end.

(** [m[k]] in the single-value form: a missing key reads as nil. *)
Definition map_index (m : GoMap) (k : string) : Value :=
  match map_lookup m k with
  | Some v => v
  | None => VNil
  end.

(** Structural equality of values, the comparison behind [HasChange]. *)
Fixpoint Value_eqb (a b : Value) : bool :=
  match a, b with
  | VNil, VNil => true
  | VString s, VString t => String.eqb s t
  | VNumber s, VNumber t => String.eqb s t
  | VInt i, VInt j => Z.eqb i j
  | VBool x, VBool y => Bool.eqb x y
  | VStrings l, VStrings l' =>
      (fix go (l l' : list string) : bool :=
         match l, l' with
         | [], [] => true
         | x :: l, y :: l' => String.eqb x y && go l l'
         | _, _ => false
         end) l l'
  | VList l, VList l' =>
      (fix go (l l' : list Value) : bool :=
         match l, l' with
         | [], [] => true
         | x :: l, y :: l' => Value_eqb x y && go l l'
         | _, _ => false
         end) l l'
  | VMap m, VMap m' =>
      (fix go (m m' : GoMap) : bool :=
         match m, m' with
         | [], [] => true
         | (k, x) :: m, (k', y) :: m' => String.eqb k k' && Value_eqb x y && go m m'
         | _, _ => false
         end) m m'
  | _, _ => false
  end.

(** The zero value test of [GetOk]: nil, the empty string, 0, false and the
    empty collections. *)
Definition isZero (v : Value) : bool :=
  match v with
  | VNil => true
  | VString s => String.eqb s ""
  | VNumber n => String.eqb n ""
  | VInt i => Z.eqb i 0
  | VBool b => negb b
  | VStrings l => match l with [] => true | _ => false end
  | VList l => match l with [] => true | _ => false end
  | VMap m => match m with [] => true | _ => false end
  end.

(** ** Results of code that may panic *)

Inductive Res (A : Type) : Type :=
| Ret (a : A)
| Panic (reason : string).
Arguments Ret {A} a.
Arguments Panic {A} reason.

Definition res_bind {A B : Type} (r : Res A) (k : A -> Res B) : Res B :=
  match r with
  | Ret a => k a
  | Panic s => Panic s
  end.

Notation "x <~ r ;; k" := (res_bind r (fun x => k))
  (at level 100, r at next level, right associativity).

(** The type assertions the source uses, each in its single-value form. *)
Definition as_string (v : Value) : Res string :=
  match v with
  | VString s => Ret s
  | _ => Panic "interface conversion: not a string"
  end.

Definition as_int (v : Value) : Res Z :=
  match v with
  | VInt i => Ret i
  | _ => Panic "interface conversion: not an int"
  end.

Definition as_bool (v : Value) : Res bool :=
  match v with
  | VBool b => Ret b
  | _ => Panic "interface conversion: not a bool"
  end.

Definition as_number (v : Value) : Res string :=
  match v with
  | VNumber n => Ret n
  | _ => Panic "interface conversion: not a json.Number"
  end.

Definition as_strings (v : Value) : Res (list string) :=
  match v with
  | VStrings l => Ret l
  | _ => Panic "interface conversion: not a []string"
  end.

Definition as_list (v : Value) : Res (list Value) :=
  match v with
  | VList l => Ret l
  | _ => Panic "interface conversion: not a []interface{}"
  end.

Definition as_map (v : Value) : Res GoMap :=
  match v with
  | VMap m => Ret m
  | _ => Panic "interface conversion: not a map[string]interface{}"
  end.

(** [uint32(i)] for a Go [int]. *)
Definition uint32 (i : Z) : Z := (i mod 2 ^ 32)%Z.

(** ** Library routines of the Go runtime the source calls *)

(** [strings.TrimSpace], on ASCII text: the white space characters are
    tab, line feed, vertical tab, form feed, carriage return and space. *)
Definition isSpace (c : ascii) : bool :=
  match N_of_ascii c with
  | 9%N | 10%N | 11%N | 12%N | 13%N | 32%N => true
  | _ => false
  end.

Fixpoint trimLeft (s : string) : string :=
  match s with
  | EmptyString => EmptyString
  | String c s' => if isSpace c then trimLeft s' else s
  end.

Fixpoint trimRight (s : string) : string :=
  match s with
  | EmptyString => EmptyString
  | String c s' =>
      match trimRight s' with
      | EmptyString => if isSpace c then EmptyString else String c EmptyString
      | r => String c r
      end
  end.

Definition TrimSpace (s : string) : string := trimRight (trimLeft s).

(** [json.Number.Int64], that is [strconv.ParseInt(s, 10, 64)] with the
    error dropped as the source drops it: 0 on a syntax error, the nearest
    bound on a range error. *)
Definition digitOf (c : ascii) : option Z :=
  let n := Z.of_N (N_of_ascii c) in
  if ((48 <=? n) && (n <=? 57))%Z then Some (n - 48)%Z else None.

Fixpoint parseDigits (s : string) (acc : Z) : option Z :=
  match s with
  | EmptyString => Some acc
  | String c s' =>
      match digitOf c with
      | Some d => parseDigits s' (10 * acc + d)%Z
      | None => None
      end
  end.

Definition parseUnsigned (s : string) : option Z :=
  match s with
  | EmptyString => None
  | _ => parseDigits s 0%Z
  end.

Definition Int64 (n : string) : Z :=
  let '(neg, body) :=
    match n with
    | String "+" s' => (false, s')
    | String "-" s' => (true, s')
    | _ => (false, n)
    end in
  match parseUnsigned body with
  | None => 0%Z
  | Some un =>
      let cutoff := (2 ^ 63)%Z in
      if negb neg && (cutoff <=? un)%Z then (cutoff - 1)%Z
      else if neg && (cutoff <? un)%Z then (- cutoff)%Z
      else if neg then (- un)%Z else un
  end.

(** ** Keys and constants *)

Definition authmethodTypePassword : string := "password".
Definition authmethodMinLoginNameLengthKey : string := "min_login_name_length".
Definition authmethodMinPasswordLengthKey : string := "min_password_length".

Definition authmethodTypeOidc : string := "oidc".
Definition authmethodOidcStateKey : string := "state".
Definition authmethodOidcDiscoveryUrlKey : string := "discovery_url".
Definition authmethodOidcClientIdKey : string := "client_id".
Definition authmethodOidcClientSecretKey : string := "client_secret".
Definition authmethodOidcClientSecretHmacKey : string := "client_secret_hmac".
Definition authmethodOidcMaxAgeKey : string := "max_age".
Definition authmethodOidcSigningAlgorithmsKey : string := "signing_algorithms".
Definition authmethodOidcApiUrlPrefixKey : string := "api_url_prefix".
Definition authmethodOidcCallbackUrlKey : string := "callback_url".
Definition authmethodOidcCertificatesKey : string := "certificates".
Definition authmethodOidcAllowedAudiencesKey : string := "allowed_audiences".
Definition authmethodOidcOverrideOidcDiscoveryUrlConfigKey : string :=
  "override_oidc_discovery_url_config".

(** Modelled from the spec: the keys [IDKey], [NameKey], [DescriptionKey],
    [ScopeIdKey] and [TypeKey] are declared in another file of the provider
    package; the configuration surface names them [id], [name],
    [description], [scope_id] and [type]. *)
Definition IDKey : string := "id".
Definition NameKey : string := "name".
Definition DescriptionKey : string := "description".
Definition ScopeIdKey : string := "scope_id".
Definition TypeKey : string := "type".

(** Modelled from the spec: the callbacks use three OIDC keys that the
    constant block of the file does not declare; they are named after the
    fields [issuer], [caCertificates] and
    [disableDiscoveredConfigValidation] of the OIDC attributes. *)
Definition authmethodOidcIssuerKey : string := "issuer".
Definition authmethodOidcCaCertificatesKey : string := "ca_certificates".
Definition authmethodOidcDisableDiscoveredConfigValidationKey : string :=
  "disable_discovered_config_validation".

(** [http.StatusNotFound]. *)
Definition StatusNotFound : Z := 404%Z.

(** ** Errors and diagnostics *)

(** Go [error] values met by the callbacks.
    Modelled from the spec: [errorInvalidAuthMethodType] is declared in
    another file of the package (the taxonomy's invalid method type);
    [SetError] is an error of the host's [Set]; [RemoteError] is an error of
    the remote client together with the status code that
    [api.AsServerError(err).Response().StatusCode()] reports for it. *)
Inductive error : Type :=
| errorInvalidAuthMethodType
| SetError (msg : string)
| RemoteError (status : Z) (msg : string).

Definition StatusCode (e : error) : Z :=
  match e with
  | RemoteError status _ => status
  | _ => 0%Z
  end.

Module diag.
(** [nil] is the empty list of diagnostics, [Errorf] a diagnostic made from
    a format string and its error argument, [FromErr] a diagnostic wrapping
    an error. *)
Inductive Diagnostics : Type :=
| nil
| Errorf (format : string) (arg : option error)
| FromErr (e : error).
End diag.

(** ** The schema of the resource *)

Inductive ValueType : Type := TypeString | TypeInt | TypeSet.

#[warnings="-register-all"]
Inductive Schema : Type :=
| mkSchema (Type_ : ValueType) (Optional Required Computed ForceNew : bool)
    (Elem : list (string * Schema)).

Definition schemaType (s : Schema) : ValueType :=
  match s with mkSchema t _ _ _ _ _ => t end.
Definition schemaForceNew (s : Schema) : bool :=
  match s with mkSchema _ _ _ _ f _ => f end.
Definition schemaRequired (s : Schema) : bool :=
  match s with mkSchema _ _ r _ _ _ => r end.

Definition computedField (t : ValueType) : Schema :=
  mkSchema t true false true false [].

Definition resourceAuthMethod_Schema : list (string * Schema) :=
  [ (IDKey, mkSchema TypeString false false true false []);
    (NameKey, mkSchema TypeString true false false false []);
    (DescriptionKey, mkSchema TypeString true false false false []);
    (ScopeIdKey, mkSchema TypeString false true false true []);
    (TypeKey, mkSchema TypeString false true false true []);
    (authmethodTypePassword, mkSchema TypeSet false false false false
       [ (authmethodMinLoginNameLengthKey, computedField TypeInt);
         (authmethodMinPasswordLengthKey, computedField TypeInt) ]);
    (authmethodTypeOidc, mkSchema TypeSet false false false false
       [ (authmethodOidcStateKey, computedField TypeString);
         (authmethodOidcDiscoveryUrlKey, computedField TypeString);
         (authmethodOidcClientIdKey, computedField TypeString);
         (authmethodOidcClientSecretKey, computedField TypeString);
         (authmethodOidcClientSecretHmacKey, computedField TypeString);
         (authmethodOidcMaxAgeKey, computedField TypeInt);
         (authmethodOidcSigningAlgorithmsKey, computedField TypeString);
         (authmethodOidcApiUrlPrefixKey, computedField TypeString);
         (authmethodOidcCallbackUrlKey, computedField TypeString);
         (authmethodOidcCertificatesKey, computedField TypeString);
         (authmethodOidcAllowedAudiencesKey, computedField TypeString);
         (authmethodOidcOverrideOidcDiscoveryUrlConfigKey, computedField TypeString) ]) ].

Fixpoint schema_lookup (l : list (string * Schema)) (k : string) : option Schema :=
  match l with
  | [] => None
  | (k', s) :: l' => if String.eqb k' k then Some s else schema_lookup l' k
  end.

(** The value [Get] reports for a key that holds nothing: the zero value of
    the key's schema type, nil for a key the schema does not declare. *)
Definition zeroOf (k : string) : Value :=
  match schema_lookup resourceAuthMethod_Schema k with
  | Some s =>
      match schemaType s with
      | TypeString => VString ""
      | TypeInt => VInt 0
      | TypeSet => VList []
      end
  | None => VNil
  end.

(** ** The host's resource data *)

(** Modelled from the spec: [schema.ResourceData] belongs to the host; its
    contract is [GetField(key) -> (value, present)], [HasChanged(key)],
    [SetField(key, value) -> error] and [SetIdentity(id)].  [rd_prior] is the
    previous record, [rd_planned] the desired one, [rd_written] what the
    callback has set so far, and [rd_setError] the host's verdict on a
    [Set]. *)
Record ResourceData : Type := mkResourceData {
  rd_id : string;
  rd_prior : gmap string Value;
  rd_planned : gmap string Value;
  rd_written : gmap string Value;
  rd_setError : string -> Value -> option error
}.

Definition Id (d : ResourceData) : string := rd_id d.

Definition oldValue (d : ResourceData) (k : string) : Value :=
  match rd_prior d !! k with
  | Some v => v
  | None => zeroOf k
  end.

Definition newValue (d : ResourceData) (k : string) : Value :=
  match rd_planned d !! k with
  | Some v => v
  | None => zeroOf k
  end.

Definition Get (d : ResourceData) (k : string) : Value :=
  match rd_written d !! k with
  | Some v => v
  | None => newValue d k
  end.

Definition GetOk (d : ResourceData) (k : string) : Value * bool :=
  let v := Get d k in (v, negb (isZero v)).

Definition HasChange (d : ResourceData) (k : string) : bool :=
  negb (Value_eqb (oldValue d k) (newValue d k)).

(** The record after an accepted [Set]. *)
Definition written_set (k : string) (v : Value) (d : ResourceData) : ResourceData :=
  mkResourceData (rd_id d) (rd_prior d) (rd_planned d) (<[k := v]> (rd_written d))
    (rd_setError d).

Definition SetField (k : string) (v : Value) (d : ResourceData) : option error * ResourceData :=
  match rd_setError d k v with
  | Some e => (Some e, d)
  | None => (None, written_set k v d)
  end.

Definition SetId (id : string) (d : ResourceData) : ResourceData :=
  mkResourceData id (rd_prior d) (rd_planned d) (rd_written d) (rd_setError d).

(** ** The remote auth method client *)

Module authmethods.
(** The options of the client library that the callbacks build. *)
Inductive Option : Type :=
| WithName (name : string)
| DefaultName
| WithDescription (description : string)
| DefaultDescription
| WithPasswordAuthMethodMinLoginNameLength (n : Z)
| DefaultPasswordAuthMethodMinLoginNameLength
| WithPasswordAuthMethodMinPasswordLength (n : Z)
| DefaultPasswordAuthMethodMinPasswordLength
| WithOidcAuthMethodIssuer (issuer : string)
| WithOidcAuthMethodClientId (clientId : string)
| WithOidcAuthMethodClientSecret (secret : string)
| WithOidcAuthMethodMaxAge (n : Z)
| WithOidcAuthMethodApiUrlPrefix (prefix : string)
| WithOidcAuthMethodIdpCaCerts (certs : list string)
| WithOidcAuthMethodAllowedAudiences (audiences : list string)
| WithOidcAuthMethodDisableDiscoveredConfigValidation (b : bool)
| WithOidcAuthMethodSigningAlgorithms (algorithms : list string)
| WithAutomaticVersioning (b : bool).
End authmethods.

(** A request sent to the remote service. *)
Inductive RemoteCall : Type :=
| CallCreate (resourceType scopeId : string) (opts : list authmethods.Option)
| CallRead (id : string)
| CallUpdate (id : string) (version : Z) (opts : list authmethods.Option)
| CallDelete (id : string).

(** The remote service as the callbacks see it: every operation answers with
    a Go pair of a result (here the response map [GetResponse().Map], [None]
    for a nil result) and an error. *)
Record Client : Type := mkClient {
  Create : string -> string -> list authmethods.Option -> option GoMap * option error;
  Read : string -> option GoMap * option error;
  Update : string -> Z -> list authmethods.Option -> option GoMap * option error;
  Delete : string -> option GoMap * option error
}.

(** ** The state a callback runs in *)

Record World : Type := mkWorld {
  data : ResourceData;
  calls : list RemoteCall
}.

Definition M (A : Type) : Type := World -> Res A * World.

Definition ret {A : Type} (a : A) : M A := fun w => (Ret a, w).

Definition bind {A B : Type} (c : M A) (k : A -> M B) : M B :=
  fun w =>
    match c w with
    | (Ret a, w') => k a w'
    | (Panic s, w') => (Panic s, w')
    end.

Definition lift {A : Type} (r : Res A) : M A := fun w => (r, w).

Notation "x <- c ;; k" := (bind c (fun x => k))
  (at level 100, c at next level, right associativity).

(** [if r := c; r != nil { return f(r) }]: a step whose failure ends the
    callback at once. *)
Definition orReturn {E R : Type} (c : M (option E)) (f : E -> R) (k : M R) : M R :=
  bind c (fun r => match r with Some e => ret (f e) | None => k end).

Notation "'check!' c 'else' f ;; k" := (orReturn c f k)
  (at level 100, c at next level, f at next level, right associativity).

Definition getData : M ResourceData := fun w => (Ret (data w), w).

Definition d_Set (k : string) (v : Value) : M (option error) :=
  fun w =>
    let '(err, d') := SetField k v (data w) in
    (Ret err, mkWorld d' (calls w)).

Definition d_SetId (id : string) : M unit :=
  fun w => (Ret tt, mkWorld (SetId id (data w)) (calls w)).

Definition d_HasChange (k : string) : M bool :=
  fun w => (Ret (HasChange (data w) k), w).

Definition record (c : RemoteCall) : M unit :=
  fun w => (Ret tt, mkWorld (data w) (calls w ++ [c])).

Definition run {A : Type} (c : M A) (d : ResourceData) : Res A * World :=
  c (mkWorld d []).

(** ** setFromAuthMethodResponseMap *)

(** [for _, x := range l { acc = append(acc, strings.TrimSpace(x.(string))) }] *)
Fixpoint trimEach (l : list Value) (acc : list string) : Res (list string) :=
  match l with
  | [] => Ret acc
  | x :: l' => s <~ as_string x ;; trimEach l' (acc ++ [TrimSpace s])
  end.

(** The loop over the keys that are set sometimes. *)
Fixpoint setSometimes (attrs : GoMap) (ks : list string) : M unit :=
  match ks with
  | [] => ret tt
  | k :: ks' =>
      _ <- match map_lookup attrs k with
           | Some val => s <- lift (as_string val) ;; d_Set k (VString s)
           | None => ret None
           end ;;
      setSometimes attrs ks'
  end.

(** The branch [case authmethodTypePassword]. [Some e] stands for
    [return e]. *)
Definition setFromAuthMethodResponseMap_password (raw : GoMap) : M (option error) :=
  match map_lookup raw "attributes" with
  | Some attrsVal =>
      attrs <- lift (as_map attrsVal) ;;
      minLoginNameLength <- lift (as_number (map_index attrs authmethodMinLoginNameLengthKey)) ;;
      let minLoginNameLengthInt := Int64 minLoginNameLength in
      check! d_Set authmethodMinLoginNameLengthKey (VInt minLoginNameLengthInt) else Some ;;
      minPasswordLength <- lift (as_number (map_index attrs authmethodMinPasswordLengthKey)) ;;
      let minPasswordLengthInt := Int64 minPasswordLength in
      check! d_Set authmethodMinPasswordLengthKey (VInt minPasswordLengthInt) else Some ;;
      ret None
  | None => ret None
  end.

(** The branch [case authmethodTypeOidc]; the errors of its [Set] calls are
    dropped as in the source, and the debugging [fmt.Printf] is left out. *)
Definition setFromAuthMethodResponseMap_oidc (raw : GoMap) : M (option error) :=
  match map_lookup raw "attributes" with
  | Some attrsVal =>
      attrs <- lift (as_map attrsVal) ;;
      s <- lift (as_string (map_index attrs authmethodOidcStateKey)) ;;
      _ <- d_Set authmethodOidcStateKey (VString s) ;;
      s <- lift (as_string (map_index attrs authmethodOidcIssuerKey)) ;;
      _ <- d_Set authmethodOidcIssuerKey (VString s) ;;
      s <- lift (as_string (map_index attrs authmethodOidcClientIdKey)) ;;
      _ <- d_Set authmethodOidcClientIdKey (VString s) ;;
      s <- lift (as_string (map_index attrs authmethodOidcClientSecretHmacKey)) ;;
      _ <- d_Set authmethodOidcClientSecretHmacKey (VString s) ;;
      certs <- lift (as_list (map_index attrs authmethodOidcCaCertificatesKey)) ;;
      stripC <- lift (trimEach certs []) ;;
      _ <- d_Set authmethodOidcCaCertificatesKey (VStrings stripC) ;;
      auds <- lift (as_list (map_index attrs authmethodOidcAllowedAudiencesKey)) ;;
      stripA <- lift (trimEach auds []) ;;
      _ <- d_Set authmethodOidcAllowedAudiencesKey (VStrings stripA) ;;
      maxAge <- lift (as_number (map_index attrs authmethodOidcMaxAgeKey)) ;;
      let maxAgeInt := Int64 maxAge in
      _ <- d_Set authmethodOidcMaxAgeKey (VInt maxAgeInt) ;;
      let sometimesString :=
        [ authmethodOidcApiUrlPrefixKey;
          authmethodOidcCallbackUrlKey;
          authmethodOidcDisableDiscoveredConfigValidationKey ] in
      _ <- setSometimes attrs sometimesString ;;
      _ <- match map_lookup attrs authmethodOidcSigningAlgorithmsKey with
           | Some val => l <- lift (as_list val) ;; d_Set authmethodOidcSigningAlgorithmsKey (VList l)
           | None => ret None
           end ;;
      ret None
  | None => ret None
  end.

Definition setFromAuthMethodResponseMap (raw : GoMap) : M (option error) :=
  check! d_Set NameKey (map_index raw "name") else Some ;;
  check! d_Set DescriptionKey (map_index raw "description") else Some ;;
  check! d_Set ScopeIdKey (map_index raw "scope_id") else Some ;;
  check! d_Set TypeKey (map_index raw "type") else Some ;;
  typeStr <- lift (as_string (map_index raw TypeKey)) ;;
  check! (if String.eqb typeStr authmethodTypePassword then
            setFromAuthMethodResponseMap_password raw
          else if String.eqb typeStr authmethodTypeOidc then
            setFromAuthMethodResponseMap_oidc raw
          else ret (Some errorInvalidAuthMethodType)) else Some ;;
  id <- lift (as_string (map_index raw "id")) ;;
  _ <- d_SetId id ;;
  ret None.

(** ** resourceAuthMethodCreate *)

(** [if v, ok := d.GetOk(k); ok { opts = append(opts, mk(v)) }] *)
Definition withIfSet (d : ResourceData) (k : string)
    (mk : Value -> Res authmethods.Option) (opts : list authmethods.Option)
  : Res (list authmethods.Option) :=
  let '(v, ok) := GetOk d k in
  if ok then o <~ mk v ;; Ret (opts ++ [o]) else Ret opts.

(** [for _, c := range l { acc = append(acc, c.(string)) }] *)
Fixpoint stringEach (l : list Value) (acc : list string) : Res (list string) :=
  match l with
  | [] => Ret acc
  | c :: l' => s <~ as_string c ;; stringEach l' (acc ++ [s])
  end.

(** The [switch typeStr] of the create callback; [None] stands for the
    default branch, which returns [errorInvalidAuthMethodType]. *)
Definition resourceAuthMethodCreate_switch (d : ResourceData) (typeStr : string)
    (opts : list authmethods.Option) : Res (option (list authmethods.Option)) :=
  if String.eqb typeStr authmethodTypePassword then
    opts <~ withIfSet d authmethodMinLoginNameLengthKey
              (fun v => minLength <~ as_int v ;;
                        Ret (authmethods.WithPasswordAuthMethodMinLoginNameLength (uint32 minLength)))
              opts ;;
    opts <~ withIfSet d authmethodMinPasswordLengthKey
              (fun v => minLength <~ as_int v ;;
                        Ret (authmethods.WithPasswordAuthMethodMinPasswordLength (uint32 minLength)))
              opts ;;
    Ret (Some opts)
  else if String.eqb typeStr authmethodTypeOidc then
    opts <~ withIfSet d authmethodOidcIssuerKey
              (fun v => s <~ as_string v ;; Ret (authmethods.WithOidcAuthMethodIssuer s)) opts ;;
    opts <~ withIfSet d authmethodOidcClientIdKey
              (fun v => s <~ as_string v ;; Ret (authmethods.WithOidcAuthMethodClientId s)) opts ;;
    opts <~ withIfSet d authmethodOidcClientSecretKey
              (fun v => s <~ as_string v ;; Ret (authmethods.WithOidcAuthMethodClientSecret s)) opts ;;
    opts <~ withIfSet d authmethodOidcMaxAgeKey
              (fun v => i <~ as_int v ;; Ret (authmethods.WithOidcAuthMethodMaxAge (uint32 i))) opts ;;
    opts <~ withIfSet d authmethodOidcApiUrlPrefixKey
              (fun v => s <~ as_string v ;; Ret (authmethods.WithOidcAuthMethodApiUrlPrefix s)) opts ;;
    opts <~ withIfSet d authmethodOidcCaCertificatesKey
              (fun v => l <~ as_list v ;; certList <~ trimEach l [] ;;
                        Ret (authmethods.WithOidcAuthMethodIdpCaCerts certList)) opts ;;
    opts <~ withIfSet d authmethodOidcAllowedAudiencesKey
              (fun v => l <~ as_list v ;; audList <~ stringEach l [] ;;
                        Ret (authmethods.WithOidcAuthMethodAllowedAudiences audList)) opts ;;
    opts <~ withIfSet d authmethodOidcDisableDiscoveredConfigValidationKey
              (fun v => b <~ as_bool v ;;
                        Ret (authmethods.WithOidcAuthMethodDisableDiscoveredConfigValidation b)) opts ;;
    opts <~ withIfSet d authmethodOidcSigningAlgorithmsKey
              (fun v => l <~ as_list v ;; algoList <~ stringEach l [] ;;
                        Ret (authmethods.WithOidcAuthMethodSigningAlgorithms algoList)) opts ;;
    Ret (Some opts)
  else Ret None.

Definition callCreate (md : Client) (typeStr scopeId : string) (opts : list authmethods.Option)
  : M (option GoMap * option error) :=
  _ <- record (CallCreate typeStr scopeId opts) ;;
  ret (Create md typeStr scopeId opts).

Definition callRead (md : Client) (id : string) : M (option GoMap * option error) :=
  _ <- record (CallRead id) ;;
  ret (Read md id).

Definition callUpdate (md : Client) (id : string) (version : Z) (opts : list authmethods.Option)
  : M (option GoMap * option error) :=
  _ <- record (CallUpdate id version opts) ;;
  ret (Update md id version opts).

Definition callDelete (md : Client) (id : string) : M (option GoMap * option error) :=
  _ <- record (CallDelete id) ;;
  ret (Delete md id).

Definition resourceAuthMethodCreate (md : Client) : M diag.Diagnostics :=
  d <- getData ;;
  let '(typeVal, ok) := GetOk d TypeKey in
  if negb ok then ret (diag.Errorf "no type provided" None) else
  typeStr <- lift (as_string typeVal) ;;
  let opts := [] in
  r <- lift (resourceAuthMethodCreate_switch d typeStr opts) ;;
  match r with
  | None => ret (diag.FromErr errorInvalidAuthMethodType)
  | Some opts =>
      opts <- lift (withIfSet d NameKey
                      (fun v => nameStr <~ as_string v ;; Ret (authmethods.WithName nameStr)) opts) ;;
      opts <- lift (withIfSet d DescriptionKey
                      (fun v => descStr <~ as_string v ;; Ret (authmethods.WithDescription descStr))
                      opts) ;;
      let '(scopeIdVal, ok) := GetOk d ScopeIdKey in
      if negb ok then ret (diag.Errorf "no scope ID provided" None) else
      scopeId <- lift (as_string scopeIdVal) ;;
      r <- callCreate md typeStr scopeId opts ;;
      let '(amcr, err) := r in
      match err with
      | Some e => ret (diag.Errorf "error creating auth method: %v" (Some e))
      | None =>
          match amcr with
          | None => ret (diag.Errorf "nil auth method after create" None)
          | Some response =>
              check! setFromAuthMethodResponseMap response else diag.FromErr ;;
              ret diag.nil
          end
      end
  end.

(** ** resourceAuthMethodRead *)

Definition resourceAuthMethodRead (md : Client) : M diag.Diagnostics :=
  d <- getData ;;
  r <- callRead md (Id d) ;;
  let '(amrr, err) := r in
  match err with
  | Some e =>
      if Z.eqb (StatusCode e) StatusNotFound then
        _ <- d_SetId "" ;;
        ret diag.nil
      else ret (diag.Errorf "error reading auth method: %v" (Some e))
  | None =>
      match amrr with
      | None => ret (diag.Errorf "auth method nil after read" None)
      | Some response =>
          check! setFromAuthMethodResponseMap response else diag.FromErr ;;
          ret diag.nil
      end
  end.

(** ** resourceAuthMethodDelete *)

Definition resourceAuthMethodDelete (md : Client) : M diag.Diagnostics :=
  d <- getData ;;
  r <- callDelete md (Id d) ;;
  let '(_, err) := r in
  match err with
  | Some e => ret (diag.Errorf "error deleting auth method: %v" (Some e))
  | None => ret diag.nil
  end.

(** ** resourceAuthMethodUpdate *)

(** [if d.HasChange(k) { opts = append(opts, dflt); if v, ok := d.GetOk(k); ok
    { opts = append(opts, mk(v)) } }], the shape of the name, description and
    password fields. *)
Definition resetAndSetIfChanged (d : ResourceData) (k : string)
    (dflt : authmethods.Option) (mk : Value -> Res authmethods.Option)
    (opts : list authmethods.Option) : Res (list authmethods.Option) :=
  if HasChange d k then
    let opts := opts ++ [dflt] in
    withIfSet d k mk opts
  else Ret opts.

(** [if d.HasChange(k) { if v, ok := d.GetOk(k); ok { opts = append(opts,
    mk(v)) } }], the shape of the OIDC fields. *)
Definition setIfChanged (d : ResourceData) (k : string)
    (mk : Value -> Res authmethods.Option)
    (opts : list authmethods.Option) : Res (list authmethods.Option) :=
  if HasChange d k then withIfSet d k mk opts else Ret opts.

(** The [switch typeStr] of the update callback; [None] stands for the
    default branch, which returns [errorInvalidAuthMethodType]. *)
Definition resourceAuthMethodUpdate_switch (d : ResourceData) (typeStr : string)
    (opts : list authmethods.Option) : Res (option (list authmethods.Option)) :=
  if String.eqb typeStr authmethodTypePassword then
    opts <~ resetAndSetIfChanged d authmethodMinLoginNameLengthKey
              authmethods.DefaultPasswordAuthMethodMinLoginNameLength
              (fun v => i <~ as_int v ;;
                        Ret (authmethods.WithPasswordAuthMethodMinLoginNameLength (uint32 i)))
              opts ;;
    opts <~ resetAndSetIfChanged d authmethodMinPasswordLengthKey
              authmethods.DefaultPasswordAuthMethodMinPasswordLength
              (fun v => i <~ as_int v ;;
                        Ret (authmethods.WithPasswordAuthMethodMinPasswordLength (uint32 i)))
              opts ;;
    Ret (Some opts)
  else if String.eqb typeStr authmethodTypeOidc then
    opts <~ setIfChanged d authmethodOidcIssuerKey
              (fun v => s <~ as_string v ;; Ret (authmethods.WithOidcAuthMethodIssuer s)) opts ;;
    opts <~ setIfChanged d authmethodOidcClientIdKey
              (fun v => s <~ as_string v ;; Ret (authmethods.WithOidcAuthMethodClientId s)) opts ;;
    opts <~ setIfChanged d authmethodOidcClientSecretKey
              (fun v => s <~ as_string v ;; Ret (authmethods.WithOidcAuthMethodClientSecret s)) opts ;;
    opts <~ setIfChanged d authmethodOidcMaxAgeKey
              (fun v => i <~ as_int v ;; Ret (authmethods.WithOidcAuthMethodMaxAge (uint32 i))) opts ;;
    opts <~ setIfChanged d authmethodOidcSigningAlgorithmsKey
              (fun v => l <~ as_strings v ;;
                        Ret (authmethods.WithOidcAuthMethodSigningAlgorithms l)) opts ;;
    opts <~ setIfChanged d authmethodOidcApiUrlPrefixKey
              (fun v => s <~ as_string v ;; Ret (authmethods.WithOidcAuthMethodApiUrlPrefix s)) opts ;;
    opts <~ setIfChanged d authmethodOidcClientSecretHmacKey
              (fun v => s <~ as_string v ;; Ret (authmethods.WithOidcAuthMethodClientSecret s)) opts ;;
    opts <~ setIfChanged d authmethodOidcAllowedAudiencesKey
              (fun v => l <~ as_strings v ;;
                        Ret (authmethods.WithOidcAuthMethodAllowedAudiences l)) opts ;;
    opts <~ setIfChanged d authmethodOidcCaCertificatesKey
              (fun v => l <~ as_strings v ;;
                        Ret (authmethods.WithOidcAuthMethodIdpCaCerts (map TrimSpace l))) opts ;;
    opts <~ setIfChanged d authmethodOidcDisableDiscoveredConfigValidationKey
              (fun v => b <~ as_bool v ;;
                        Ret (authmethods.WithOidcAuthMethodDisableDiscoveredConfigValidation b)) opts ;;
    Ret (Some opts)
  else Ret None.

(** The options the update callback has collected when it reaches
    [if len(opts) > 0] (source lines 422 to 516). *)
Definition resourceAuthMethodUpdate_options (d : ResourceData)
  : Res (option (list authmethods.Option)) :=
  let opts := [] in
  opts <~ resetAndSetIfChanged d NameKey authmethods.DefaultName
            (fun v => s <~ as_string v ;; Ret (authmethods.WithName s)) opts ;;
  opts <~ resetAndSetIfChanged d DescriptionKey authmethods.DefaultDescription
            (fun v => s <~ as_string v ;; Ret (authmethods.WithDescription s)) opts ;;
  typeStr <~ as_string (Get d TypeKey) ;;
  resourceAuthMethodUpdate_switch d typeStr opts.

(** The last block of the update callback writes the identifiers [name],
    [desc], [minLoginNameLength] and [minPasswordLength], which no statement
    of the function declares; their values are taken as given. *)
Record UpdateLocals : Type := mkUpdateLocals {
  local_name : Value;
  local_desc : Value;
  local_minLoginNameLength : Value;
  local_minPasswordLength : Value
}.

(** [if d.HasChange(k) { if err := d.Set(k, v); err != nil { return
    diag.FromErr(err) } }] *)
Definition setIfHasChange (k : string) (v : Value) : M (option error) :=
  changed <- d_HasChange k ;;
  if changed then d_Set k v else ret None.

(** The last block of the update callback (source lines 525 to 546). *)
Definition resourceAuthMethodUpdate_tail (locals : UpdateLocals) : M diag.Diagnostics :=
  check! setIfHasChange NameKey (local_name locals) else diag.FromErr ;;
  check! setIfHasChange DescriptionKey (local_desc locals) else diag.FromErr ;;
  check! setIfHasChange authmethodMinLoginNameLengthKey (local_minLoginNameLength locals)
    else diag.FromErr ;;
  check! setIfHasChange authmethodMinPasswordLengthKey (local_minPasswordLength locals)
    else diag.FromErr ;;
  ret diag.nil.

(** The block opened by [if len(opts) > 0] at line 518 has no closing brace
    in the source; it is closed after the error check of the remote call, as
    the indentation of the lines that follow has it. *)
Definition resourceAuthMethodUpdate (locals : UpdateLocals) (md : Client) : M diag.Diagnostics :=
  d <- getData ;;
  r <- lift (resourceAuthMethodUpdate_options d) ;;
  match r with
  | None => ret (diag.FromErr errorInvalidAuthMethodType)
  | Some opts =>
      check! (if (0 <? length opts)%nat then
                let opts := opts ++ [authmethods.WithAutomaticVersioning true] in
                r <- callUpdate md (Id d) 0%Z opts ;;
                let '(amur, err) := r in
                ret err
              else ret None)
        else (fun e => diag.Errorf "error updating auth method: %v" (Some e)) ;;
      resourceAuthMethodUpdate_tail locals
  end.

(** ** Auxiliary notions for the proofs *)

(** A step that sends nothing to the remote service. *)
Definition silent {A : Type} (c : M A) : Prop :=
  forall w, calls (snd (c w)) = calls w.


(** ** Sample records and remote services *)

(** A host that accepts every [Set]. *)
Definition acceptAll : string -> Value -> option error := fun _ _ => None.

(** A remote service that answers every request with an empty response. *)
Definition quietClient : Client :=
  mkClient (fun _ _ _ => (Some [], None)) (fun _ => (Some [], None))
    (fun _ _ _ => (Some [], None)) (fun _ => (Some [], None)).

(** A remote service on which the record no longer exists. *)
Definition errNotFound : error := RemoteError 404 "not found".
Definition goneClient : Client :=
  mkClient (fun _ _ _ => (None, Some errNotFound)) (fun _ => (None, Some errNotFound))
    (fun _ _ _ => (None, Some errNotFound)) (fun _ => (None, Some errNotFound)).

(** A remote service that fails with an internal error. *)
Definition errInternal : error := RemoteError 500 "internal error".
Definition brokenClient : Client :=
  mkClient (fun _ _ _ => (None, Some errInternal)) (fun _ => (None, Some errInternal))
    (fun _ _ _ => (None, Some errInternal)) (fun _ => (None, Some errInternal)).

Definition noLocals : UpdateLocals := mkUpdateLocals VNil VNil VNil VNil.

(** A password record whose desired values equal the previous ones. *)
Definition settledFields : gmap string Value :=
  list_to_map [ (TypeKey, VString "password"); (ScopeIdKey, VString "global");
                (NameKey, VString "corp") ].
Definition settledRecord : ResourceData :=
  mkResourceData "ampw_1" settledFields settledFields ∅ acceptAll.

(** A password record renamed and moved to another scope. *)
Definition movedRecord : ResourceData :=
  mkResourceData "ampw_1" settledFields
    (list_to_map [ (TypeKey, VString "password"); (ScopeIdKey, VString "o_1");
                   (NameKey, VString "staff") ])
    ∅ acceptAll.

(** An OIDC record whose issuer was removed from the configuration. *)
Definition unsetIssuerRecord : ResourceData :=
  mkResourceData "amoidc_1"
    (list_to_map [ (TypeKey, VString "oidc"); (ScopeIdKey, VString "global");
                   (authmethodOidcIssuerKey, VString "https://idp.example") ])
    (list_to_map [ (TypeKey, VString "oidc"); (ScopeIdKey, VString "global") ])
    ∅ acceptAll.


(** An OIDC record whose client secret HMAC differs from the previous one. *)
Definition rotatedRecord : ResourceData :=
  mkResourceData "amoidc_1"
    (list_to_map [ (TypeKey, VString "oidc"); (ScopeIdKey, VString "global");
                   (authmethodOidcClientSecretHmacKey, VString "hmac-old") ])
    (list_to_map [ (TypeKey, VString "oidc"); (ScopeIdKey, VString "global");
                   (authmethodOidcClientSecretHmacKey, VString "hmac-new") ])
    ∅ acceptAll.

(** ** What the update options say about one field *)






(** ** Records that differ in the previous values of the immutable keys *)

(** [d'] is [d] except, possibly, for the previous values of [scope_id] and
    [type]. *)
Definition sameButImmutablePrior (d' d : ResourceData) : Prop :=
  rd_id d' = rd_id d /\
  rd_planned d' = rd_planned d /\
  rd_written d' = rd_written d /\
  rd_setError d' = rd_setError d /\
  forall k, k <> ScopeIdKey -> k <> TypeKey -> rd_prior d' !! k = rd_prior d !! k.

Definition related (w' w : World) : Prop :=
  sameButImmutablePrior (data w') (data w) /\ calls w' = calls w.

(** A step that cannot tell related worlds apart. *)
Definition respects {A : Type} (c : M A) : Prop :=
  forall w' w, related w' w ->
    fst (c w') = fst (c w) /\ related (snd (c w')) (snd (c w)).

(** The record [d] with another map of previous values. *)
Definition withPrior (prior : gmap string Value) (d : ResourceData) : ResourceData :=
  mkResourceData (rd_id d) prior (rd_planned d) (rd_written d) (rd_setError d).

(** The [ForceNew] flag the schema gives a top-level key. *)
Definition ForceNewOf (k : string) : option bool :=
  option_map schemaForceNew (schema_lookup resourceAuthMethod_Schema k).

(** ** The options of a create *)

(** The options the create callback has collected when it reaches the scope
    id (source lines 292 to 369); [None] stands for the default branch of the
    switch. *)
Definition resourceAuthMethodCreate_options (d : ResourceData) (typeStr : string)
  : Res (option (list authmethods.Option)) :=
  r <~ resourceAuthMethodCreate_switch d typeStr [] ;;
  match r with
  | None => Ret None
  | Some opts =>
      opts <~ withIfSet d NameKey
                (fun v => nameStr <~ as_string v ;; Ret (authmethods.WithName nameStr)) opts ;;
      opts <~ withIfSet d DescriptionKey
                (fun v => descStr <~ as_string v ;; Ret (authmethods.WithDescription descStr))
                opts ;;
      Ret (Some opts)
  end.

(** A configuration with an unknown type and no scope id. *)
Definition strayRecord : ResourceData :=
  mkResourceData "" ∅ (list_to_map [ (TypeKey, VString "ldap") ]) ∅ acceptAll.

(** A password configuration without a scope id. *)
Definition unscopedRecord : ResourceData :=
  mkResourceData "" ∅
    (list_to_map [ (TypeKey, VString "password");
                   (authmethodMinLoginNameLengthKey, VInt 5) ])
    ∅ acceptAll.

(** A configuration without a type. *)
Definition untypedRecord : ResourceData :=
  mkResourceData "" ∅ (list_to_map [ (ScopeIdKey, VString "global") ]) ∅ acceptAll.

(** ** Responses whose fields have the asserted types *)

Definition isString (v : Value) : bool :=
  match v with VString _ => true | _ => false end.

Definition isNumber (v : Value) : bool :=
  match v with VNumber _ => true | _ => false end.

Definition isList (v : Value) : bool :=
  match v with VList _ => true | _ => false end.

(** A [[]interface{}] of strings. *)
Definition isStringList (v : Value) : bool :=
  match v with VList l => forallb isString l | _ => false end.

(** A key that may be missing, and satisfies [f] when it is there. *)
Definition whenPresent (f : Value -> bool) (o : option Value) : bool :=
  match o with Some v => f v | None => true end.


Definition wellFormedOidc (attrs : GoMap) : bool :=
  isString (map_index attrs authmethodOidcStateKey) &&
  isString (map_index attrs authmethodOidcIssuerKey) &&
  isString (map_index attrs authmethodOidcClientIdKey) &&
  isString (map_index attrs authmethodOidcClientSecretHmacKey) &&
  isStringList (map_index attrs authmethodOidcCaCertificatesKey) &&
  isStringList (map_index attrs authmethodOidcAllowedAudiencesKey) &&
  isNumber (map_index attrs authmethodOidcMaxAgeKey) &&
  forallb (fun k => whenPresent isString (map_lookup attrs k))
    [ authmethodOidcApiUrlPrefixKey;
      authmethodOidcCallbackUrlKey;
      authmethodOidcDisableDiscoveredConfigValidationKey ] &&
  whenPresent isList (map_lookup attrs authmethodOidcSigningAlgorithmsKey).

Definition wellFormedAttributes (f : GoMap -> bool) (raw : GoMap) : bool :=
  match map_lookup raw "attributes" with
  | None => true
  | Some (VMap attrs) => f attrs
  | Some _ => false
  end.


(** A step that never panics. *)
Definition total {A : Type} (c : M A) : Prop :=
  forall w, exists a, fst (c w) = Ret a.

(** A step that keeps a property of the record. *)
Definition stable {A : Type} (P : ResourceData -> Prop) (c : M A) : Prop :=
  forall w, P (data w) -> P (data (snd (c w))).

(** The host accepts every [Set] on the record. *)
Definition acceptsAll (d : ResourceData) : Prop :=
  forall k v, rd_setError d k v = None.


(** ** Sample responses *)

Definition newline : string := String (ascii_of_nat 10) EmptyString.


(** A password response with the server defaults, and one whose numbers are
    not integers. *)
Definition passwordResponse : GoMap :=
  [ ("id", VString "ampw_1"); ("type", VString "password"); ("scope_id", VString "global");
    ("attributes",
     VMap [ (authmethodMinLoginNameLengthKey, VNumber "3");
            (authmethodMinPasswordLengthKey, VNumber "8") ]) ].


(** An OIDC response that echoes the certificates with a line feed added. *)
Definition oidcEcho : GoMap :=
  [ ("id", VString "amoidc_1"); ("type", VString "oidc"); ("scope_id", VString "global");
    ("attributes",
     VMap [ (authmethodOidcStateKey, VString "inactive");
            (authmethodOidcIssuerKey, VString "https://idp.example");
            (authmethodOidcClientIdKey, VString "client");
            (authmethodOidcClientSecretHmacKey, VString "hmac");
            (authmethodOidcCaCertificatesKey, VList [ VString ("A" +:+ newline); VString "B" ]);
            (authmethodOidcAllowedAudiencesKey, VList [ VString " aud " ]);
            (authmethodOidcMaxAgeKey, VNumber "0") ]) ].


(** ** Kinds of options *)

(** The configuration key a set option carries; a reset marker and the
    automatic versioning switch carry none. *)
Definition setKeyOf (o : authmethods.Option) : option string :=
  match o with
  | authmethods.WithName _ => Some NameKey
  | authmethods.WithDescription _ => Some DescriptionKey
  | authmethods.WithPasswordAuthMethodMinLoginNameLength _ =>
      Some authmethodMinLoginNameLengthKey
  | authmethods.WithPasswordAuthMethodMinPasswordLength _ =>
      Some authmethodMinPasswordLengthKey
  | authmethods.WithOidcAuthMethodIssuer _ => Some authmethodOidcIssuerKey
  | authmethods.WithOidcAuthMethodClientId _ => Some authmethodOidcClientIdKey
  | authmethods.WithOidcAuthMethodClientSecret _ => Some authmethodOidcClientSecretKey
  | authmethods.WithOidcAuthMethodMaxAge _ => Some authmethodOidcMaxAgeKey
  | authmethods.WithOidcAuthMethodApiUrlPrefix _ => Some authmethodOidcApiUrlPrefixKey
  | authmethods.WithOidcAuthMethodIdpCaCerts _ => Some authmethodOidcCaCertificatesKey
  | authmethods.WithOidcAuthMethodAllowedAudiences _ => Some authmethodOidcAllowedAudiencesKey
  | authmethods.WithOidcAuthMethodDisableDiscoveredConfigValidation _ =>
      Some authmethodOidcDisableDiscoveredConfigValidationKey
  | authmethods.WithOidcAuthMethodSigningAlgorithms _ =>
      Some authmethodOidcSigningAlgorithmsKey
  | _ => None
  end.

(** An option of the name or the description. *)
Definition isCommonOption (o : authmethods.Option) : bool :=
  match o with
  | authmethods.WithName _ | authmethods.DefaultName
  | authmethods.WithDescription _ | authmethods.DefaultDescription => true
  | _ => false
  end.

(** An option of the password attributes. *)
Definition isPasswordOption (o : authmethods.Option) : bool :=
  match o with
  | authmethods.WithPasswordAuthMethodMinLoginNameLength _
  | authmethods.DefaultPasswordAuthMethodMinLoginNameLength
  | authmethods.WithPasswordAuthMethodMinPasswordLength _
  | authmethods.DefaultPasswordAuthMethodMinPasswordLength => true
  | _ => false
  end.

(** An option of the OIDC attributes. *)
Definition isOidcOption (o : authmethods.Option) : bool :=
  match o with
  | authmethods.WithOidcAuthMethodIssuer _
  | authmethods.WithOidcAuthMethodClientId _
  | authmethods.WithOidcAuthMethodClientSecret _
  | authmethods.WithOidcAuthMethodMaxAge _
  | authmethods.WithOidcAuthMethodApiUrlPrefix _
  | authmethods.WithOidcAuthMethodIdpCaCerts _
  | authmethods.WithOidcAuthMethodAllowedAudiences _
  | authmethods.WithOidcAuthMethodDisableDiscoveredConfigValidation _
  | authmethods.WithOidcAuthMethodSigningAlgorithms _ => true
  | _ => false
  end.

(** The option sets a key that has an explicit value in the record. *)
Definition setsExplicitValue (d : ResourceData) (o : authmethods.Option) : Prop :=
  exists k, setKeyOf o = Some k /\ isZero (Get d k) = false.

(** A password configuration with a scope id, a name and a minimum login
    name length. *)
Definition passwordConfig : ResourceData :=
  mkResourceData "" ∅
    (list_to_map [ (TypeKey, VString "password"); (ScopeIdKey, VString "global");
                   (NameKey, VString "corp");
                   (authmethodMinLoginNameLengthKey, VInt 5) ])
    ∅ acceptAll.

(** An OIDC configuration with audiences and signing algorithms. *)
Definition oidcConfig : ResourceData :=
  mkResourceData "" ∅
    (list_to_map [ (TypeKey, VString "oidc"); (ScopeIdKey, VString "global");
                   (authmethodOidcIssuerKey, VString "https://idp.example");
                   (authmethodOidcAllowedAudiencesKey, VList [ VString " aud "; VString "other" ]);
                   (authmethodOidcSigningAlgorithmsKey, VList [ VString "RS256"; VString "ES256" ]) ])
    ∅ acceptAll.


(** A remote service that answers with neither a result nor an error. *)
Definition silentClient : Client :=
  mkClient (fun _ _ _ => (None, None)) (fun _ => (None, None))
    (fun _ _ _ => (None, None)) (fun _ => (None, None)).

(** A password configuration that leaves both lengths to the server. *)
Definition bareConfig : ResourceData :=
  mkResourceData "" ∅
    (list_to_map [ (TypeKey, VString "password"); (ScopeIdKey, VString "global") ])
    ∅ acceptAll.

(** A response of a type the provider does not know. *)
Definition ldapResponse : GoMap :=
  [ ("id", VString "amldap_1"); ("type", VString "ldap"); ("name", VString "directory") ].

(** A remote service that answers every request with [ldapResponse]. *)
Definition ldapClient : Client :=
  mkClient (fun _ _ _ => (Some ldapResponse, None)) (fun _ => (Some ldapResponse, None))
    (fun _ _ _ => (Some ldapResponse, None)) (fun _ => (None, None)).

(** [a] is directly followed by [b] in [opts]. *)
Definition adjacent (a b : authmethods.Option) (opts : list authmethods.Option) : Prop :=
  exists pre suf, opts = pre ++ a :: b :: suf.

(** The keys the last block of the update callback may write. *)
Definition updateWrittenKeys : list string :=
  [ NameKey; DescriptionKey; authmethodMinLoginNameLengthKey; authmethodMinPasswordLengthKey ].

(** A record of an unknown type whose name has changed. *)
Definition renamedLdapRecord : ResourceData :=
  mkResourceData "amldap_1"
    (list_to_map [ (TypeKey, VString "ldap"); (NameKey, VString "old") ])
    (list_to_map [ (TypeKey, VString "ldap"); (NameKey, VString "new") ])
    ∅ acceptAll.

(** A password record whose name, description and minimum login name length
    have new explicit values. *)
Definition editedRecord : ResourceData :=
  mkResourceData "ampw_1"
    (list_to_map [ (TypeKey, VString "password"); (ScopeIdKey, VString "global") ])
    (list_to_map [ (TypeKey, VString "password"); (ScopeIdKey, VString "global");
                   (NameKey, VString "staff"); (DescriptionKey, VString "people");
                   (authmethodMinLoginNameLengthKey, VInt 6) ])
    ∅ acceptAll.

(** The OIDC keys the update callback consults, in its order. *)
Definition oidcUpdateKeys : list string :=
  [ authmethodOidcIssuerKey; authmethodOidcClientIdKey; authmethodOidcClientSecretKey;
    authmethodOidcMaxAgeKey; authmethodOidcSigningAlgorithmsKey;
    authmethodOidcApiUrlPrefixKey; authmethodOidcClientSecretHmacKey;
    authmethodOidcAllowedAudiencesKey; authmethodOidcCaCertificatesKey;
    authmethodOidcDisableDiscoveredConfigValidationKey ].

(** A step that returns [a] from every state. *)
Definition returns {A : Type} (a : A) (c : M A) : Prop :=
  forall w, fst (c w) = Ret a.

(** The top-level keys the decoder sets first. *)
Definition leadingKeys : list string := [ NameKey; DescriptionKey; ScopeIdKey; TypeKey ].

(** The OIDC keys the decoder sets only when the response has them. *)
Definition optionalOidcKeys : list string :=
  [ authmethodOidcApiUrlPrefixKey; authmethodOidcCallbackUrlKey;
    authmethodOidcDisableDiscoveredConfigValidationKey;
    authmethodOidcSigningAlgorithmsKey ].

(** A host that accepts the leading keys and refuses every other [Set]. *)
Definition leadingOnly : string -> Value -> option error :=
  fun k _ =>
    if existsb (String.eqb k) leadingKeys then None else Some (SetError "invalid address").

Definition strictRecord : ResourceData :=
  mkResourceData "amoidc_1" ∅ ∅ ∅ leadingOnly.

(** A host that refuses every [Set]. *)
Definition refuseAll : string -> Value -> option error :=
  fun _ _ => Some (SetError "invalid address").

Definition closedRecord : ResourceData :=
  mkResourceData "ampw_1" ∅ ∅ ∅ refuseAll.

(** A record that holds an API URL prefix written earlier. *)
Definition prefixedRecord : ResourceData :=
  mkResourceData "amoidc_1" ∅ ∅
    (list_to_map [ (authmethodOidcApiUrlPrefixKey, VString "https://api.example") ])
    acceptAll.


(** An OIDC response whose validation switch is a JSON bool. *)
Definition oidcBoolResponse : GoMap :=
  [ ("id", VString "amoidc_1"); ("type", VString "oidc");
    ("attributes",
     VMap [ (authmethodOidcStateKey, VString "inactive");
            (authmethodOidcIssuerKey, VString "https://idp.example");
            (authmethodOidcClientIdKey, VString "client");
            (authmethodOidcClientSecretHmacKey, VString "hmac");
            (authmethodOidcCaCertificatesKey, VList []);
            (authmethodOidcAllowedAudiencesKey, VList []);
            (authmethodOidcMaxAgeKey, VNumber "0");
            (authmethodOidcDisableDiscoveredConfigValidationKey, VBool true) ]) ].

(** The fields the decoder asserts in every OIDC response have the types it
    asserts. *)
Definition oidcRequiredTyped (attrs : GoMap) : bool :=
  isString (map_index attrs authmethodOidcStateKey) &&
  isString (map_index attrs authmethodOidcIssuerKey) &&
  isString (map_index attrs authmethodOidcClientIdKey) &&
  isString (map_index attrs authmethodOidcClientSecretHmacKey) &&
  isStringList (map_index attrs authmethodOidcCaCertificatesKey) &&
  isStringList (map_index attrs authmethodOidcAllowedAudiencesKey) &&
  isNumber (map_index attrs authmethodOidcMaxAgeKey).

(** ** White space at the ends of a string *)

Definition firstIsSpace (s : string) : bool :=
  match s with
  | EmptyString => false
  | String c _ => isSpace c
  end.

Fixpoint lastIsSpace (s : string) : bool :=
  match s with
  | EmptyString => false
  | String c EmptyString => isSpace c
  | String _ s' => lastIsSpace s'
  end.

Fixpoint allSpace (s : string) : bool :=
  match s with
  | EmptyString => true
  | String c s' => isSpace c && allSpace s'
  end.

(** ** Decimal text *)

(** The decimal text of an integer: its digits without leading zeros, after
    a minus sign when it is negative. *)
Definition decimal (z : Z) : string :=
  DecimalString.NilZero.string_of_int (Z.to_int z).

(** A password configuration whose minimum login name length is negative. *)
Definition negativeLengthConfig : ResourceData :=
  mkResourceData "" ∅
    (list_to_map [ (TypeKey, VString "password"); (ScopeIdKey, VString "global");
                   (authmethodMinLoginNameLengthKey, VInt (-1)) ])
    ∅ acceptAll.

(** * The checks of the primary auth method tests

    Source: internal/provider/resource_scope_primary_auth_method_test.go. *)

(** The instance and resource states of [terraform.State] as the checks read
    them: the type of the resource, the id and the attributes of its primary
    instance. *)
Record InstanceState : Type := mkInstanceState {
  ID : string;
  Attributes : gmap string string
}.

Record ResourceState : Type := mkResourceState {
  Type_ : string;
  Primary : InstanceState
}.

(** [m[k]] on a [map[string]string]: a missing key reads as the empty
    string. *)
Definition attribute (m : gmap string string) (k : string) : string :=
  match m !! k with
  | Some v => v
  | None => ""
  end.

(** What [scopes.Client.Read] answers: the item of the read result with its
    primary auth method id ([None] for a nil result), and an error. *)
Record Scope : Type := mkScope {
  PrimaryAuthMethodId : string
}.

Definition ScopesClient : Type := string -> option Scope * option error.

(** An error built by [fmt.Errorf]: the format, its string arguments and the
    error wrapped by [%w], if any. *)
Inductive CheckError : Type :=
| Errorf (format : string) (args : list string) (wrapped : option error).

(** [apiErr := api.AsServerError(err); apiErr == nil ||
    apiErr.Response().StatusCode() != http.StatusNotFound] *)
Definition notA404 (err : option error) : bool :=
  match err with
  | None => true
  | Some e => negb (Z.eqb (StatusCode e) StatusNotFound)
  end.

(** [testAccCheckPrimaryAuthMethodResourceDestroy], on the resources of the
    root module in the order the loop meets them. *)
Fixpoint testAccCheckPrimaryAuthMethodResourceDestroy (scp : ScopesClient)
    (resources : list ResourceState) : option CheckError :=
  match resources with
  | [] => None
  | rs :: rest =>
      let id := ID (Primary rs) in
      if String.eqb (Type_ rs) "boundary_scope_primary_auth_method" then
        let '(_, err) := scp id in
        if notA404 err then
          Some (Errorf "didn't get a 404 when reading destroyed resource %q: %w" [id] err)
        else testAccCheckPrimaryAuthMethodResourceDestroy scp rest
      else testAccCheckPrimaryAuthMethodResourceDestroy scp rest
  end.

(** [testCheckScopePrimaryAuthMethodResourceExists]. The attribute key
    [authMethodIdKey] is declared with the resource of the primary auth
    method, in another file of the package; it is taken as given. *)
Definition testCheckScopePrimaryAuthMethodResourceExists (authMethodIdKey : string)
    (scpClient : ScopesClient) (resourceName : string) (resources : gmap string ResourceState)
  : Res (option CheckError) :=
  match resources !! resourceName with
  | None => Ret (Some (Errorf "Not Found: %s" [resourceName] None))
  | Some primaryAuthMethod =>
      let actualScopeId := ID (Primary primaryAuthMethod) in
      if String.eqb actualScopeId "" then
        Ret (Some (Errorf "ScopeId not set: %s" [resourceName] None))
      else
        let actualAuthMethodId := attribute (Attributes (Primary primaryAuthMethod)) authMethodIdKey in
        if String.eqb actualAuthMethodId "" then
          Ret (Some (Errorf "AuthMethodId not set: %s" [resourceName] None))
        else
          let '(apiResponse, err) := scpClient actualScopeId in
          match err with
          | Some e =>
              Ret (Some (Errorf "Got an error when reading scope %q: %w" [actualScopeId] (Some e)))
          | None =>
              match apiResponse with
              | None => Panic "invalid memory address or nil pointer dereference"
              | Some item =>
                  let gotAuthMethodId := PrimaryAuthMethodId item in
                  if negb (String.eqb gotAuthMethodId actualAuthMethodId) then
                    Ret (Some (Errorf
                                 "Primary AuthMethod Id not matching expected value. got %s. wanted %s."
                                 [gotAuthMethodId; actualAuthMethodId] None))
                  else Ret None
              end
          end
  end.

(** [testCheckOldScopePrimaryAuthMethodResourceUnset] *)
Definition testCheckOldScopePrimaryAuthMethodResourceUnset (scpClient : ScopesClient)
    (resourceName : string) (resources : gmap string ResourceState)
  : Res (option CheckError) :=
  match resources !! resourceName with
  | None => Ret (Some (Errorf "Not found: %s" [resourceName] None))
  | Some scope =>
      let scopeId := ID (Primary scope) in
      if String.eqb scopeId "" then
        Ret (Some (Errorf "ScopeId not set: %s" [resourceName] None))
      else
        let '(apiResponse, err) := scpClient scopeId in
        match err with
        | Some e =>
            Ret (Some (Errorf "Got an error when reading scope %q: %w" [scopeId] (Some e)))
        | None =>
            match apiResponse with
            | None => Panic "invalid memory address or nil pointer dereference"
            | Some item =>
                if negb (String.eqb (PrimaryAuthMethodId item) "") then
                  Ret (Some (Errorf "primary auth method was not unset for scope %s"
                               [resourceName] None))
                else Ret None
            end
        end
  end.

(** Sample states and scope services. *)
Definition bindingState : ResourceState :=
  mkResourceState "boundary_scope_primary_auth_method"
    (mkInstanceState "o_1" {[ "auth_method_id" := "ampw_1" ]}).

Definition scopeState : ResourceState :=
  mkResourceState "boundary_scope" (mkInstanceState "o_1" ∅).

Definition goneScopes : ScopesClient := fun _ => (None, Some errNotFound).

Definition boundScopes : ScopesClient := fun _ => (Some (mkScope "ampw_1"), None).

(** ** The record after the last block of an update *)



(** * Properties *)

(** ** Values *)

Lemma Value_eqb_refl : forall v : Value, Value_eqb v v = true.
Proof.
  fix IH 1.
  intros [ | s | n | i | b | l | l | m ]; simpl.
  - reflexivity.
  - apply String.eqb_refl.
  - apply String.eqb_refl.
  - apply Z.eqb_refl.
  - destruct b; reflexivity.
  - induction l as [ | x l IHl ]; [ reflexivity | ].
    rewrite String.eqb_refl. exact IHl.
  - induction l as [ | x l IHl ]; [ reflexivity | ].
    rewrite (IH x). exact IHl.
  - induction m as [ | [k x] m IHm ]; [ reflexivity | ].
    rewrite String.eqb_refl, (IH x). exact IHm.
Qed.

(** A record whose previous and desired values coincide has no changed key. *)
Lemma HasChange_same_maps (d : ResourceData) :
  rd_prior d = rd_planned d -> forall k, HasChange d k = false.
Proof.
  intros Heq k. unfold HasChange, oldValue, newValue. rewrite Heq.
  rewrite Value_eqb_refl. reflexivity.
Qed.

(** ** Results *)

Lemma res_bind_Ret {A B : Type} (r : Res A) (k : A -> Res B) (b : B) :
  res_bind r k = Ret b -> exists a, r = Ret a /\ k a = Ret b.
Proof.
  destruct r as [ a | s ]; simpl; intros H; [ eauto | discriminate ].
Qed.

(** ** The option builders only append *)

Lemma withIfSet_inv d k mk opts opts' :
  withIfSet d k mk opts = Ret opts' ->
  (isZero (Get d k) = true /\ opts' = opts) \/
  (isZero (Get d k) = false /\ exists o, mk (Get d k) = Ret o /\ opts' = opts ++ [o]).
Proof.
  unfold withIfSet, GetOk. destruct (isZero (Get d k)); simpl.
  - intros [= <-]. left. split; reflexivity.
  - intros H. apply res_bind_Ret in H as (o & Ho & [= <-]).
    right. split; [ reflexivity | eauto ].
Qed.

Lemma withIfSet_incl d k mk opts opts' :
  withIfSet d k mk opts = Ret opts' -> incl opts opts'.
Proof.
  intros H. apply withIfSet_inv in H as [ [_ ->] | (_ & o & _ & ->) ].
  - apply incl_refl.
  - apply incl_appl, incl_refl.
Qed.

Lemma resetAndSetIfChanged_incl d k dflt mk opts opts' :
  resetAndSetIfChanged d k dflt mk opts = Ret opts' -> incl opts opts'.
Proof.
  unfold resetAndSetIfChanged. destruct (HasChange d k).
  - intros H. apply withIfSet_incl in H.
    intros o Ho. apply H, in_or_app. left. exact Ho.
  - intros [= <-]. apply incl_refl.
Qed.

Lemma setIfChanged_incl d k mk opts opts' :
  setIfChanged d k mk opts = Ret opts' -> incl opts opts'.
Proof.
  unfold setIfChanged. destruct (HasChange d k).
  - apply withIfSet_incl.
  - intros [= <-]. apply incl_refl.
Qed.

Lemma resetAndSetIfChanged_unchanged d k dflt mk opts :
  HasChange d k = false -> resetAndSetIfChanged d k dflt mk opts = Ret opts.
Proof. unfold resetAndSetIfChanged. intros ->. reflexivity. Qed.

Lemma setIfChanged_unchanged d k mk opts :
  HasChange d k = false -> setIfChanged d k mk opts = Ret opts.
Proof. unfold setIfChanged. intros ->. reflexivity. Qed.

(** Without a changed key the update callback collects no option. *)
Lemma update_options_no_change (d : ResourceData) :
  (forall k, HasChange d k = false) ->
  resourceAuthMethodUpdate_options d =
    (typeStr <~ as_string (Get d TypeKey) ;;
     if String.eqb typeStr authmethodTypePassword then Ret (Some [])
     else if String.eqb typeStr authmethodTypeOidc then Ret (Some [])
     else Ret None).
Proof.
  intros Hno. unfold resourceAuthMethodUpdate_options, resourceAuthMethodUpdate_switch.
  repeat (rewrite resetAndSetIfChanged_unchanged by apply Hno; simpl).
  destruct (as_string (Get d TypeKey)) as [ t | s ]; simpl; [ | reflexivity ].
  destruct (String.eqb t authmethodTypePassword).
  - repeat (rewrite resetAndSetIfChanged_unchanged by apply Hno; simpl). reflexivity.
  - destruct (String.eqb t authmethodTypeOidc); [ | reflexivity ].
    repeat (rewrite setIfChanged_unchanged by apply Hno; simpl). reflexivity.
Qed.

(** ** Running a callback step by step *)

Lemma bind_Ret {A B : Type} (c : M A) (k : A -> M B) (w w' : World) (a : A) :
  c w = (Ret a, w') -> bind c k w = k a w'.
Proof. unfold bind. intros ->. reflexivity. Qed.

Lemma orReturn_continue {E R : Type} (c : M (option E)) (f : E -> R) (k : M R) (w w' : World) :
  c w = (Ret None, w') -> orReturn c f k w = k w'.
Proof. unfold orReturn. intros H. rewrite (bind_Ret _ _ _ _ _ H). reflexivity. Qed.

Lemma setIfHasChange_unchanged (k : string) (v : Value) (w : World) :
  HasChange (data w) k = false -> setIfHasChange k v w = (Ret None, w).
Proof.
  intros H. unfold setIfHasChange, bind, d_HasChange. rewrite H. reflexivity.
Qed.

Lemma silent_ret {A : Type} (a : A) : silent (ret a).
Proof. intros w. reflexivity. Qed.

Lemma silent_bind {A B : Type} (c : M A) (k : A -> M B) :
  silent c -> (forall a, silent (k a)) -> silent (bind c k).
Proof.
  intros Hc Hk w. unfold bind. specialize (Hc w).
  destruct (c w) as [ [ a | s ] w' ]; simpl in *.
  - rewrite Hk. exact Hc.
  - exact Hc.
Qed.

Lemma silent_orReturn {E R : Type} (c : M (option E)) (f : E -> R) (k : M R) :
  silent c -> silent k -> silent (orReturn c f k).
Proof.
  intros Hc Hk. apply silent_bind; [ exact Hc | ].
  intros [ e | ]; [ apply silent_ret | exact Hk ].
Qed.

Lemma silent_d_Set (k : string) (v : Value) : silent (d_Set k v).
Proof.
  intros w. unfold d_Set. destruct (SetField k v (data w)). reflexivity.
Qed.

Lemma silent_d_HasChange (k : string) : silent (d_HasChange k).
Proof. intros w. reflexivity. Qed.

Lemma silent_setIfHasChange (k : string) (v : Value) : silent (setIfHasChange k v).
Proof.
  apply silent_bind; [ apply silent_d_HasChange | ].
  intros [ | ]; [ apply silent_d_Set | apply silent_ret ].
Qed.

Lemma silent_update_tail (locals : UpdateLocals) : silent (resourceAuthMethodUpdate_tail locals).
Proof.
  unfold resourceAuthMethodUpdate_tail.
  repeat (apply silent_orReturn; [ apply silent_setIfHasChange | ]).
  apply silent_ret.
Qed.

Lemma update_tail_no_change (locals : UpdateLocals) (w : World) :
  (forall k, HasChange (data w) k = false) ->
  resourceAuthMethodUpdate_tail locals w = (Ret diag.nil, w).
Proof.
  intros Hno. unfold resourceAuthMethodUpdate_tail.
  repeat (rewrite (orReturn_continue _ _ _ w w)
            by (apply setIfHasChange_unchanged, Hno)).
  reflexivity.
Qed.

(** The update callback, unfolded after its options are known. *)
Lemma update_run (locals : UpdateLocals) (md : Client) (d : ResourceData) :
  run (resourceAuthMethodUpdate locals md) d =
    match resourceAuthMethodUpdate_options d with
    | Panic s => (Panic s, mkWorld d [])
    | Ret None => (Ret (diag.FromErr errorInvalidAuthMethodType), mkWorld d [])
    | Ret (Some opts) =>
        match opts with
        | [] => resourceAuthMethodUpdate_tail locals (mkWorld d [])
        | _ :: _ =>
            let sent := opts ++ [authmethods.WithAutomaticVersioning true] in
            let w := mkWorld d [CallUpdate (Id d) 0%Z sent] in
            match snd (Update md (Id d) 0%Z sent) with
            | Some e => (Ret (diag.Errorf "error updating auth method: %v" (Some e)), w)
            | None => resourceAuthMethodUpdate_tail locals w
            end
        end
    end.
Proof.
  unfold run, resourceAuthMethodUpdate.
  unfold bind at 1. unfold getData at 1. simpl.
  unfold bind at 1. unfold lift at 1.
  destruct (resourceAuthMethodUpdate_options d) as [ [ opts | ] | s ]; try reflexivity.
  destruct opts as [ | o opts ]; simpl.
  - reflexivity.
  - unfold orReturn at 1. unfold bind at 1. unfold bind at 1.
    unfold callUpdate, bind, record, ret. simpl.
    destruct (Update md (Id d) 0%Z (o :: opts ++ [authmethods.WithAutomaticVersioning true]))
      as [ amur [ e | ] ]; reflexivity.
Qed.

(** ** Update *)

(** C1: an update in which no field differs between the previous and the
    desired record sends nothing to the remote service and leaves the record
    as it was; for a password or OIDC record it reports no diagnostic. *)
Theorem update_without_change_is_noop
    (locals : UpdateLocals) (md : Client) (d : ResourceData) :
  (forall k, HasChange d k = false) ->
  calls (snd (run (resourceAuthMethodUpdate locals md) d)) = [] /\
  data (snd (run (resourceAuthMethodUpdate locals md) d)) = d /\
  (Get d TypeKey = VString authmethodTypePassword \/
   Get d TypeKey = VString authmethodTypeOidc ->
   fst (run (resourceAuthMethodUpdate locals md) d) = Ret diag.nil).
Proof.
  intros Hno. rewrite update_run, (update_options_no_change d Hno).
  destruct (Get d TypeKey) as [ | t | | | | | | ] eqn:Ht; simpl;
    try (split; [ reflexivity | split; [ reflexivity | intros [ ? | ? ]; discriminate ] ]).
  destruct (String.eqb t authmethodTypePassword) eqn:Hp;
    [ | destruct (String.eqb t authmethodTypeOidc) eqn:Ho ].
  - rewrite update_tail_no_change by exact Hno. auto.
  - rewrite update_tail_no_change by exact Hno. auto.
  - simpl. split; [ reflexivity | split; [ reflexivity | ] ].
    intros [ [= ->] | [= ->] ]; discriminate.
Qed.

Lemma update_without_change_is_noop_witness :
  calls (snd (run (resourceAuthMethodUpdate noLocals goneClient) settledRecord)) = [] /\
  data (snd (run (resourceAuthMethodUpdate noLocals goneClient) settledRecord)) = settledRecord /\
  fst (run (resourceAuthMethodUpdate noLocals goneClient) settledRecord) = Ret diag.nil.
Proof.
  destruct (update_without_change_is_noop noLocals goneClient settledRecord
              (HasChange_same_maps settledRecord eq_refl)) as (Hc & Hd & Hr).
  split; [ exact Hc | split; [ exact Hd | ] ].
  apply Hr. left. vm_compute. reflexivity.
Defined.

(** C5: every request the update callback sends to the remote service is an
    update of the record's id that passes version 0 and ends with the
    automatic versioning option, after at least one other option. *)
Theorem update_requests_automatic_versioning
    (locals : UpdateLocals) (md : Client) (d : ResourceData) (c : RemoteCall) :
  In c (calls (snd (run (resourceAuthMethodUpdate locals md) d))) ->
  exists opts,
    opts <> [] /\
    resourceAuthMethodUpdate_options d = Ret (Some opts) /\
    c = CallUpdate (Id d) 0%Z (opts ++ [authmethods.WithAutomaticVersioning true]).
Proof.
  rewrite update_run.
  destruct (resourceAuthMethodUpdate_options d) as [ [ opts | ] | s ]; simpl;
    try (intros []).
  destruct opts as [ | o opts ].
  - rewrite silent_update_tail. simpl. intros [].
  - cbv zeta.
    destruct (snd (Update md (Id d) 0%Z
                     ((o :: opts) ++ [authmethods.WithAutomaticVersioning true]))) as [ e | ].
    + simpl. intros [ <- | [] ]. exists (o :: opts). repeat split. discriminate.
    + rewrite silent_update_tail. simpl. intros [ <- | [] ].
      exists (o :: opts). repeat split. discriminate.
Qed.

Lemma update_requests_automatic_versioning_witness :
  exists opts,
    opts <> [] /\
    resourceAuthMethodUpdate_options movedRecord = Ret (Some opts) /\
    CallUpdate "ampw_1" 0%Z
      [ authmethods.DefaultName; authmethods.WithName "staff";
        authmethods.WithAutomaticVersioning true ]
    = CallUpdate (Id movedRecord) 0%Z (opts ++ [authmethods.WithAutomaticVersioning true]).
Proof.
  apply (update_requests_automatic_versioning noLocals quietClient movedRecord).
  vm_compute. left. reflexivity.
Defined.

(** ** Read *)



(** ** Delete *)

(** C3 as stated fails. The delete callback on a record the remote service
    no longer has: the not-found error comes back as a diagnostic. *)
Lemma delete_not_found_is_reported :
  (snd (Delete goneClient (Id settledRecord)) = Some errNotFound /\
   StatusCode errNotFound = StatusNotFound /\
   fst (run (resourceAuthMethodDelete goneClient) settledRecord) =
     Ret (diag.Errorf "error deleting auth method: %v" (Some errNotFound))) /\
  ~ (forall (md : Client) (d : ResourceData) (e : error),
       snd (Delete md (Id d)) = Some e ->
       StatusCode e = StatusNotFound ->
       fst (run (resourceAuthMethodDelete md) d) = Ret diag.nil).
Proof.
  split.
  - repeat split.
  - intros H. specialize (H goneClient settledRecord errNotFound eq_refl eq_refl).
    discriminate H.
Qed.

(** C3, as the code has it: the delete callback sends one delete request and
    reports no diagnostic exactly when that request returns no error; every
    error of the request, a not-found one included, is reported as the
    diagnostic "error deleting auth method". The record is not touched. *)
Theorem delete_reports_every_error (md : Client) (d : ResourceData) :
  run (resourceAuthMethodDelete md) d =
    (match snd (Delete md (Id d)) with
     | Some e => Ret (diag.Errorf "error deleting auth method: %v" (Some e))
     | None => Ret diag.nil
     end,
     mkWorld d [CallDelete (Id d)]).
Proof.
  unfold run, resourceAuthMethodDelete, bind, getData, callDelete, record, ret. simpl.
  destruct (Delete md (Id d)) as [ r [ e | ] ]; reflexivity.
Qed.

(** ** The options of an update *)

Lemma withIfSet_emits d k mk opts opts' o :
  withIfSet d k mk opts = Ret opts' ->
  isZero (Get d k) = false -> mk (Get d k) = Ret o -> In o opts'.
Proof.
  intros H Hz Hmk. apply withIfSet_inv in H as [ [Hz' _] | (_ & o' & Ho' & ->) ].
  - congruence.
  - rewrite Hmk in Ho'. injection Ho' as <-. apply in_or_app. right. left. reflexivity.
Qed.

Lemma setIfChanged_emits d k mk opts opts' o :
  setIfChanged d k mk opts = Ret opts' ->
  HasChange d k = true -> isZero (Get d k) = false -> mk (Get d k) = Ret o ->
  In o opts'.
Proof.
  unfold setIfChanged. intros H Hc. rewrite Hc in H. eapply withIfSet_emits; eassumption.
Qed.

Lemma resetAndSetIfChanged_emits d k dflt mk opts opts' o :
  resetAndSetIfChanged d k dflt mk opts = Ret opts' ->
  HasChange d k = true -> isZero (Get d k) = false -> mk (Get d k) = Ret o ->
  In o opts'.
Proof.
  unfold resetAndSetIfChanged. intros H Hc. rewrite Hc in H.
  eapply withIfSet_emits; eassumption.
Qed.


Ltac invert_chain H :=
  repeat (let x := fresh "opts" in
          let Hx := fresh "Hstep" in
          apply res_bind_Ret in H as (x & Hx & H); cbv beta in H).

Ltac climb :=
  match goal with
  | H : setIfChanged ?d ?k ?mk ?a = Ret ?b |- In _ ?b =>
      apply (setIfChanged_incl d k mk a b H)
  | H : resetAndSetIfChanged ?d ?k ?dflt ?mk ?a = Ret ?b |- In _ ?b =>
      apply (resetAndSetIfChanged_incl d k dflt mk a b H)
  end.

Lemma update_switch_password_inv d opts0 opts :
  resourceAuthMethodUpdate_switch d authmethodTypePassword opts0 = Ret (Some opts) ->
  exists opts1,
    resetAndSetIfChanged d authmethodMinLoginNameLengthKey
      authmethods.DefaultPasswordAuthMethodMinLoginNameLength
      (fun v => i <~ as_int v ;;
                Ret (authmethods.WithPasswordAuthMethodMinLoginNameLength (uint32 i))) opts0
    = Ret opts1 /\
    resetAndSetIfChanged d authmethodMinPasswordLengthKey
      authmethods.DefaultPasswordAuthMethodMinPasswordLength
      (fun v => i <~ as_int v ;;
                Ret (authmethods.WithPasswordAuthMethodMinPasswordLength (uint32 i))) opts1
    = Ret opts.
Proof.
  unfold resourceAuthMethodUpdate_switch. change (String.eqb authmethodTypePassword authmethodTypePassword) with true.
  cbv iota. intros H. invert_chain H. injection H as <-. eauto.
Qed.


Lemma isZero_string s : s <> "" -> isZero (VString s) = false.
Proof. intros H. simpl. apply String.eqb_neq. exact H. Qed.

Lemma isZero_int i : i <> 0%Z -> isZero (VInt i) = false.
Proof. intros H. simpl. apply Z.eqb_neq. exact H. Qed.


Lemma update_options_inv d opts :
  resourceAuthMethodUpdate_options d = Ret (Some opts) ->
  exists opts1 opts2 t,
    resetAndSetIfChanged d NameKey authmethods.DefaultName
      (fun v => s <~ as_string v ;; Ret (authmethods.WithName s)) [] = Ret opts1 /\
    resetAndSetIfChanged d DescriptionKey authmethods.DefaultDescription
      (fun v => s <~ as_string v ;; Ret (authmethods.WithDescription s)) opts1 = Ret opts2 /\
    Get d TypeKey = VString t /\
    resourceAuthMethodUpdate_switch d t opts2 = Ret (Some opts).
Proof.
  unfold resourceAuthMethodUpdate_options. intros H.
  apply res_bind_Ret in H as (opts1 & H1 & H). cbv beta in H.
  apply res_bind_Ret in H as (opts2 & H2 & H). cbv beta in H.
  apply res_bind_Ret in H as (t & Ht & H).
  exists opts1, opts2, t. repeat split; try assumption.
  destruct (Get d TypeKey); try discriminate. injection Ht as ->. reflexivity.
Qed.

(** Closes a goal [In o opts] from the steps that built [opts]: the step of
    the key at hand emits the option, every later step keeps it. *)
Ltac emitted Hget Hzero :=
  repeat first
    [ solve [ eapply setIfChanged_emits;
              [ eassumption | assumption | rewrite Hget; apply Hzero; assumption
              | rewrite Hget; reflexivity ] ]
    | solve [ eapply resetAndSetIfChanged_emits;
              [ eassumption | assumption | rewrite Hget; apply Hzero; assumption
              | rewrite Hget; reflexivity ] ]
    | climb ].





(** C10: on an OIDC record whose client secret HMAC differs between the
    previous and the desired record and is a non-empty string, the options of
    the update hold a set-client-secret option whose value is the HMAC, and
    the update request carries these options to the remote service. *)
Theorem update_sends_hmac_as_client_secret
    (d : ResourceData) (opts : list authmethods.Option) (hmac : string) :
  Get d TypeKey = VString authmethodTypeOidc ->
  HasChange d authmethodOidcClientSecretHmacKey = true ->
  Get d authmethodOidcClientSecretHmacKey = VString hmac ->
  hmac <> "" ->
  resourceAuthMethodUpdate_options d = Ret (Some opts) ->
  In (authmethods.WithOidcAuthMethodClientSecret hmac) opts /\
  forall (locals : UpdateLocals) (md : Client),
    calls (snd (run (resourceAuthMethodUpdate locals md) d)) =
      [CallUpdate (Id d) 0%Z (opts ++ [authmethods.WithAutomaticVersioning true])].
Proof.
  intros Hty Hc Hget Hne Hopts.
  assert (Hin : In (authmethods.WithOidcAuthMethodClientSecret hmac) opts).
  { apply update_options_inv in Hopts as (opts1 & opts2 & t & _ & _ & Ht & Hsw).
    rewrite Hty in Ht. injection Ht as <-.
    unfold resourceAuthMethodUpdate_switch in Hsw.
    change (String.eqb authmethodTypeOidc authmethodTypePassword) with false in Hsw.
    change (String.eqb authmethodTypeOidc authmethodTypeOidc) with true in Hsw.
    cbv iota in Hsw. invert_chain Hsw. injection Hsw as <-.
    emitted Hget isZero_string. }
  split; [ exact Hin | ].
  intros locals md. rewrite update_run, Hopts.
  destruct opts as [ | o opts ]; [ destruct Hin | ].
  cbv zeta.
  destruct (snd (Update md (Id d) 0%Z
                   ((o :: opts) ++ [authmethods.WithAutomaticVersioning true]))) as [ e | ].
  - reflexivity.
  - rewrite silent_update_tail. reflexivity.
Qed.

Lemma update_sends_hmac_as_client_secret_witness :
  In (authmethods.WithOidcAuthMethodClientSecret "hmac-new")
     [authmethods.WithOidcAuthMethodClientSecret "hmac-new"] /\
  calls (snd (run (resourceAuthMethodUpdate noLocals quietClient) rotatedRecord)) =
    [CallUpdate "amoidc_1" 0%Z
       [authmethods.WithOidcAuthMethodClientSecret "hmac-new";
        authmethods.WithAutomaticVersioning true]].
Proof.
  destruct (update_sends_hmac_as_client_secret rotatedRecord
              [authmethods.WithOidcAuthMethodClientSecret "hmac-new"] "hmac-new")
    as (Hin & Hcalls); try (vm_compute; reflexivity); [ discriminate | ].
  split; [ exact Hin | ]. apply Hcalls.
Defined.

(** ** Update does not look at the immutable keys *)

Lemma res_bind_cong {A B : Type} (r r' : Res A) (k k' : A -> Res B) :
  r = r' -> (forall a, k a = k' a) -> res_bind r k = res_bind r' k'.
Proof. intros <- Hk. destruct r; simpl; [ apply Hk | reflexivity ]. Qed.

Section ImmutablePrior.
Variables d' d : ResourceData.
Hypothesis Hsame : sameButImmutablePrior d' d.

Lemma same_Get k : Get d' k = Get d k.
Proof.
  destruct Hsame as (_ & Hp & Hw & _). unfold Get, newValue. rewrite Hp, Hw. reflexivity.
Qed.

Lemma same_HasChange k : k <> ScopeIdKey -> k <> TypeKey -> HasChange d' k = HasChange d k.
Proof.
  intros H1 H2. destruct Hsame as (_ & Hp & _ & _ & Hprior).
  unfold HasChange, oldValue, newValue. rewrite Hp, (Hprior k H1 H2). reflexivity.
Qed.

Lemma same_withIfSet k mk opts : withIfSet d' k mk opts = withIfSet d k mk opts.
Proof. unfold withIfSet, GetOk. rewrite same_Get. reflexivity. Qed.

Lemma same_setIfChanged k mk opts :
  k <> ScopeIdKey -> k <> TypeKey -> setIfChanged d' k mk opts = setIfChanged d k mk opts.
Proof.
  intros H1 H2. unfold setIfChanged. rewrite same_HasChange, same_withIfSet by assumption.
  reflexivity.
Qed.

Lemma same_resetAndSetIfChanged k dflt mk opts :
  k <> ScopeIdKey -> k <> TypeKey ->
  resetAndSetIfChanged d' k dflt mk opts = resetAndSetIfChanged d k dflt mk opts.
Proof.
  intros H1 H2. unfold resetAndSetIfChanged.
  rewrite same_HasChange, same_withIfSet by assumption. reflexivity.
Qed.

Lemma same_update_options :
  resourceAuthMethodUpdate_options d' = resourceAuthMethodUpdate_options d.
Proof.
  unfold resourceAuthMethodUpdate_options, resourceAuthMethodUpdate_switch.
  rewrite same_Get.
  repeat first
    [ reflexivity
    | apply res_bind_cong;
      [ first [ reflexivity
              | apply same_resetAndSetIfChanged; discriminate
              | apply same_setIfChanged; discriminate ]
      | intros ? ]
    | match goal with
      | |- (if ?b then _ else _) = _ => destruct b
      end ].
Qed.
End ImmutablePrior.

Lemma related_refl_calls d' d cs :
  sameButImmutablePrior d' d -> related (mkWorld d' cs) (mkWorld d cs).
Proof. intros H. split; [ exact H | reflexivity ]. Qed.

Lemma respects_ret {A : Type} (a : A) : respects (ret a).
Proof. intros w' w H. split; [ reflexivity | exact H ]. Qed.

Lemma respects_bind {A B : Type} (c : M A) (k : A -> M B) :
  respects c -> (forall a, respects (k a)) -> respects (bind c k).
Proof.
  intros Hc Hk w' w Hrel. unfold bind.
  destruct (Hc w' w Hrel) as [Hfst Hsnd].
  destruct (c w') as [r' v']; destruct (c w) as [r v]; simpl in *. subst r'.
  destruct r as [ a | s ].
  - apply Hk. exact Hsnd.
  - split; [ reflexivity | exact Hsnd ].
Qed.

Lemma respects_orReturn {E R : Type} (c : M (option E)) (f : E -> R) (k : M R) :
  respects c -> respects k -> respects (orReturn c f k).
Proof.
  intros Hc Hk. apply respects_bind; [ exact Hc | ].
  intros [ e | ]; [ apply respects_ret | exact Hk ].
Qed.

Lemma respects_d_Set (k : string) (v : Value) : respects (d_Set k v).
Proof.
  intros [d' cs'] [d cs] [ (Hid & Hp & Hw & He & Hprior) Hcalls ]. simpl in *.
  unfold d_Set, SetField. simpl. rewrite He.
  destruct (rd_setError d k v) as [ e | ]; simpl.
  - split; [ reflexivity | ]. split; [ | exact Hcalls ]. repeat split; assumption.
  - split; [ reflexivity | ]. split; [ | exact Hcalls ].
    repeat split; simpl; try assumption. rewrite Hw. reflexivity.
Qed.

Lemma respects_d_HasChange (k : string) :
  k <> ScopeIdKey -> k <> TypeKey -> respects (d_HasChange k).
Proof.
  intros H1 H2 w' w Hrel. unfold d_HasChange. simpl.
  rewrite (same_HasChange _ _ (proj1 Hrel) k H1 H2). split; [ reflexivity | exact Hrel ].
Qed.

Lemma respects_setIfHasChange (k : string) (v : Value) :
  k <> ScopeIdKey -> k <> TypeKey -> respects (setIfHasChange k v).
Proof.
  intros H1 H2. apply respects_bind; [ apply respects_d_HasChange; assumption | ].
  intros [ | ]; [ apply respects_d_Set | apply respects_ret ].
Qed.

Lemma respects_update_tail (locals : UpdateLocals) :
  respects (resourceAuthMethodUpdate_tail locals).
Proof.
  unfold resourceAuthMethodUpdate_tail.
  repeat (apply respects_orReturn; [ apply respects_setIfHasChange; discriminate | ]).
  apply respects_ret.
Qed.

Lemma withPrior_same (prior' : gmap string Value) (d : ResourceData) :
  (forall k, k <> ScopeIdKey -> k <> TypeKey -> prior' !! k = rd_prior d !! k) ->
  sameButImmutablePrior (withPrior prior' d) d.
Proof. intros H. repeat split. exact H. Qed.

(** C2 as stated fails. A password record renamed and moved to another
    scope: the update callback sends the update and reports no diagnostic. *)
Lemma update_accepts_changed_scope :
  (HasChange movedRecord ScopeIdKey = true /\
   fst (run (resourceAuthMethodUpdate noLocals quietClient) movedRecord) = Ret diag.nil /\
   calls (snd (run (resourceAuthMethodUpdate noLocals quietClient) movedRecord)) =
     [CallUpdate "ampw_1" 0%Z
        [ authmethods.DefaultName; authmethods.WithName "staff";
          authmethods.WithAutomaticVersioning true ]]) /\
  ~ (forall (locals : UpdateLocals) (md : Client) (d : ResourceData),
       HasChange d ScopeIdKey = true \/ HasChange d TypeKey = true ->
       fst (run (resourceAuthMethodUpdate locals md) d) <> Ret diag.nil /\
       calls (snd (run (resourceAuthMethodUpdate locals md) d)) = []).
Proof.
  split.
  - vm_compute. repeat split.
  - intros H.
    destruct (H noLocals quietClient movedRecord) as [Hfail _].
    + left. vm_compute. reflexivity.
    + apply Hfail. vm_compute. reflexivity.
Qed.

(** C2, as the code has it: the update callback does not compare the
    previous and the desired scope id or type. Whatever the previous values
    of these two keys are, equal to the desired ones or not, the callback
    reports the same diagnostics and sends the same requests; immutability is
    only declared to the host, by the [ForceNew] flag of both keys in the
    schema. *)
Theorem update_ignores_previous_immutable_values
    (locals : UpdateLocals) (md : Client) (d : ResourceData) (prior' : gmap string Value) :
  (forall k, k <> ScopeIdKey -> k <> TypeKey -> prior' !! k = rd_prior d !! k) ->
  fst (run (resourceAuthMethodUpdate locals md) (withPrior prior' d)) =
    fst (run (resourceAuthMethodUpdate locals md) d) /\
  calls (snd (run (resourceAuthMethodUpdate locals md) (withPrior prior' d))) =
    calls (snd (run (resourceAuthMethodUpdate locals md) d)) /\
  ForceNewOf ScopeIdKey = Some true /\
  ForceNewOf TypeKey = Some true.
Proof.
  intros Hprior. pose proof (withPrior_same prior' d Hprior) as Hsame.
  assert (Hgoal : fst (run (resourceAuthMethodUpdate locals md) (withPrior prior' d)) =
                    fst (run (resourceAuthMethodUpdate locals md) d) /\
                  related (snd (run (resourceAuthMethodUpdate locals md) (withPrior prior' d)))
                          (snd (run (resourceAuthMethodUpdate locals md) d))).
  { rewrite !update_run, (same_update_options _ _ Hsame).
    destruct (resourceAuthMethodUpdate_options d) as [ [ opts | ] | s ].
    - destruct opts as [ | o opts ].
      + apply respects_update_tail, related_refl_calls, Hsame.
      + cbv zeta. change (Id (withPrior prior' d)) with (Id d).
        destruct (snd (Update md (Id d) 0%Z
                         ((o :: opts) ++ [authmethods.WithAutomaticVersioning true])))
          as [ e | ].
        * split; [ reflexivity | apply related_refl_calls, Hsame ].
        * apply respects_update_tail, related_refl_calls, Hsame.
    - split; [ reflexivity | apply related_refl_calls, Hsame ].
    - split; [ reflexivity | apply related_refl_calls, Hsame ]. }
  destruct Hgoal as [Hfst [_ Hcalls]].
  repeat split; assumption || reflexivity.
Qed.

Lemma update_ignores_previous_immutable_values_witness :
  fst (run (resourceAuthMethodUpdate noLocals quietClient)
         (withPrior (<[ScopeIdKey := VString "o_1"]> settledFields) movedRecord)) =
    fst (run (resourceAuthMethodUpdate noLocals quietClient) movedRecord) /\
  calls (snd (run (resourceAuthMethodUpdate noLocals quietClient)
                (withPrior (<[ScopeIdKey := VString "o_1"]> settledFields) movedRecord))) =
    calls (snd (run (resourceAuthMethodUpdate noLocals quietClient) movedRecord)) /\
  ForceNewOf ScopeIdKey = Some true /\
  ForceNewOf TypeKey = Some true.
Proof.
  apply (update_ignores_previous_immutable_values noLocals quietClient movedRecord).
  intros k Hscope Htype. simpl. apply lookup_insert_ne. congruence.
Defined.

(** ** Create *)

(** The create callback, unfolded up to its remote call. *)
Lemma create_run (md : Client) (d : ResourceData) :
  run (resourceAuthMethodCreate md) d =
    if negb (snd (GetOk d TypeKey)) then
      (Ret (diag.Errorf "no type provided" None), mkWorld d [])
    else
      match as_string (Get d TypeKey) with
      | Panic s => (Panic s, mkWorld d [])
      | Ret typeStr =>
          match resourceAuthMethodCreate_options d typeStr with
          | Panic s => (Panic s, mkWorld d [])
          | Ret None => (Ret (diag.FromErr errorInvalidAuthMethodType), mkWorld d [])
          | Ret (Some opts) =>
              if negb (snd (GetOk d ScopeIdKey)) then
                (Ret (diag.Errorf "no scope ID provided" None), mkWorld d [])
              else
                match as_string (Get d ScopeIdKey) with
                | Panic s => (Panic s, mkWorld d [])
                | Ret scopeId =>
                    let w := mkWorld d [CallCreate typeStr scopeId opts] in
                    match Create md typeStr scopeId opts with
                    | (_, Some e) =>
                        (Ret (diag.Errorf "error creating auth method: %v" (Some e)), w)
                    | (None, None) =>
                        (Ret (diag.Errorf "nil auth method after create" None), w)
                    | (Some response, None) =>
                        (check! setFromAuthMethodResponseMap response else diag.FromErr ;;
                         ret diag.nil) w
                    end
                end
          end
      end.
Proof.
  unfold run, resourceAuthMethodCreate, resourceAuthMethodCreate_options.
  unfold bind at 1. unfold getData at 1. cbn [data GetOk fst snd].
  destruct (negb (isZero (Get d TypeKey))); cbn [negb]; [ | reflexivity ].
  unfold bind at 1. unfold lift at 1.
  destruct (as_string (Get d TypeKey)) as [ typeStr | s ]; [ | reflexivity ].
  unfold bind at 1. unfold lift at 1.
  destruct (resourceAuthMethodCreate_switch d typeStr []) as [ [ opts | ] | s ];
    cbn [res_bind]; try reflexivity.
  unfold bind at 1. unfold lift at 1.
  destruct (withIfSet d NameKey _ opts) as [ opts1 | s ]; cbn [res_bind]; [ | reflexivity ].
  unfold bind at 1. unfold lift at 1.
  destruct (withIfSet d DescriptionKey _ opts1) as [ opts2 | s ]; cbn [res_bind];
    [ | reflexivity ].
  destruct (negb (isZero (Get d ScopeIdKey))); cbn [negb]; [ | reflexivity ].
  unfold bind at 1. unfold lift at 1.
  destruct (as_string (Get d ScopeIdKey)) as [ scopeId | s ]; [ | reflexivity ].
  unfold bind at 1. unfold callCreate at 1. unfold bind at 1. unfold record at 1.
  cbn [data calls app]. unfold ret at 1.
  destruct (Create md typeStr scopeId opts2) as [ [ response | ] [ e | ] ]; reflexivity.
Qed.

Lemma create_options_invalid_type (d : ResourceData) (t : string) :
  t <> authmethodTypePassword -> t <> authmethodTypeOidc ->
  resourceAuthMethodCreate_options d t = Ret None.
Proof.
  intros Hp Ho. unfold resourceAuthMethodCreate_options, resourceAuthMethodCreate_switch.
  apply String.eqb_neq in Hp, Ho. rewrite Hp, Ho. reflexivity.
Qed.

(** C6 as stated fails. A configuration with an unknown type and no scope
    id: the create callback reports the invalid type, not the missing scope
    id. *)
Lemma create_reports_invalid_type_first :
  (snd (GetOk strayRecord ScopeIdKey) = false /\
   run (resourceAuthMethodCreate quietClient) strayRecord =
     (Ret (diag.FromErr errorInvalidAuthMethodType), mkWorld strayRecord [])) /\
  ~ (forall (md : Client) (d : ResourceData),
       snd (GetOk d TypeKey) = false \/ snd (GetOk d ScopeIdKey) = false ->
       fst (run (resourceAuthMethodCreate md) d) = Ret (diag.Errorf "no type provided" None) \/
       fst (run (resourceAuthMethodCreate md) d) = Ret (diag.Errorf "no scope ID provided" None)).
Proof.
  split.
  - vm_compute. split; reflexivity.
  - intros H. destruct (H quietClient strayRecord) as [ Hr | Hr ].
    + right. vm_compute. reflexivity.
    + vm_compute in Hr. discriminate Hr.
    + vm_compute in Hr. discriminate Hr.
Qed.

(** C6, as the code has it: the create callback checks in this order and
    sends nothing to the remote service when a check fails. A configuration
    without a type is refused with "no type provided"; a type other than
    password and oidc is refused with the invalid auth method type error,
    whether or not a scope id is there; a password or OIDC configuration
    without a scope id, whose options encode, is refused with "no scope ID
    provided". Whenever the type or the scope id is missing, no request is
    sent and the record is left as it was. *)
Theorem create_validates_before_remote_call (md : Client) (d : ResourceData) :
  (snd (GetOk d TypeKey) = false ->
   run (resourceAuthMethodCreate md) d =
     (Ret (diag.Errorf "no type provided" None), mkWorld d [])) /\
  (forall t, Get d TypeKey = VString t -> t <> "" ->
     t <> authmethodTypePassword -> t <> authmethodTypeOidc ->
     run (resourceAuthMethodCreate md) d =
       (Ret (diag.FromErr errorInvalidAuthMethodType), mkWorld d [])) /\
  (forall t opts, Get d TypeKey = VString t ->
     t = authmethodTypePassword \/ t = authmethodTypeOidc ->
     snd (GetOk d ScopeIdKey) = false ->
     resourceAuthMethodCreate_options d t = Ret (Some opts) ->
     run (resourceAuthMethodCreate md) d =
       (Ret (diag.Errorf "no scope ID provided" None), mkWorld d [])) /\
  (snd (GetOk d TypeKey) = false \/ snd (GetOk d ScopeIdKey) = false ->
   snd (run (resourceAuthMethodCreate md) d) = mkWorld d []).
Proof.
  rewrite create_run. repeat split.
  - intros ->. reflexivity.
  - intros t Ht Hne Hp Ho. unfold GetOk. rewrite Ht. cbn [snd as_string].
    rewrite (isZero_string t Hne). cbn [negb].
    rewrite create_options_invalid_type by assumption. reflexivity.
  - intros t opts Ht Hvalid Hscope Hopts. unfold GetOk at 1. rewrite Ht.
    cbn [snd as_string].
    assert (Hne : t <> "") by (destruct Hvalid as [ -> | -> ]; discriminate).
    rewrite (isZero_string t Hne). cbn [negb]. rewrite Hopts, Hscope. reflexivity.
  - intros [ -> | Hscope ]; [ reflexivity | ].
    destruct (negb (snd (GetOk d TypeKey))); [ reflexivity | ].
    destruct (as_string (Get d TypeKey)) as [ t | s ]; [ | reflexivity ].
    destruct (resourceAuthMethodCreate_options d t) as [ [ opts | ] | s ]; try reflexivity.
    rewrite Hscope. reflexivity.
Qed.

Lemma create_validates_before_remote_call_witness :
  run (resourceAuthMethodCreate quietClient) untypedRecord =
    (Ret (diag.Errorf "no type provided" None), mkWorld untypedRecord []) /\
  run (resourceAuthMethodCreate quietClient) strayRecord =
    (Ret (diag.FromErr errorInvalidAuthMethodType), mkWorld strayRecord []) /\
  run (resourceAuthMethodCreate quietClient) unscopedRecord =
    (Ret (diag.Errorf "no scope ID provided" None), mkWorld unscopedRecord []) /\
  snd (run (resourceAuthMethodCreate quietClient) unscopedRecord) = mkWorld unscopedRecord [].
Proof.
  split; [ | split; [ | split ] ].
  - apply (proj1 (create_validates_before_remote_call quietClient untypedRecord)).
    vm_compute. reflexivity.
  - apply (proj1 (proj2 (create_validates_before_remote_call quietClient strayRecord)) "ldap");
      [ vm_compute; reflexivity | discriminate | discriminate | discriminate ].
  - apply (proj1 (proj2 (proj2 (create_validates_before_remote_call quietClient unscopedRecord)))
             "password" [authmethods.WithPasswordAuthMethodMinLoginNameLength 5]);
      [ vm_compute; reflexivity | left; reflexivity | vm_compute; reflexivity
      | vm_compute; reflexivity ].
  - apply (proj2 (proj2 (proj2 (create_validates_before_remote_call quietClient unscopedRecord)))).
    right. vm_compute. reflexivity.
Defined.

(** ** Decoding a response *)

Lemma isString_inv v : isString v = true -> exists s, v = VString s.
Proof. destruct v; try discriminate. eauto. Qed.

Lemma isNumber_inv v : isNumber v = true -> exists n, v = VNumber n.
Proof. destruct v; try discriminate. eauto. Qed.

Lemma isList_inv v : isList v = true -> exists l, v = VList l.
Proof. destruct v; try discriminate. eauto. Qed.

Lemma isStringList_inv v :
  isStringList v = true -> exists l, v = VList l /\ forallb isString l = true.
Proof. destruct v; try discriminate. eauto. Qed.

Lemma trimEach_strings (l : list Value) (acc : list string) :
  forallb isString l = true -> exists r, trimEach l acc = Ret r.
Proof.
  revert acc. induction l as [ | x l IH ]; intros acc H; simpl in *.
  - eauto.
  - apply andb_true_iff in H as [Hx Hl]. apply isString_inv in Hx as [s ->]. simpl.
    apply IH. exact Hl.
Qed.

Lemma trimEach_map (cs : list string) (acc : list string) :
  trimEach (map VString cs) acc = Ret (acc ++ map TrimSpace cs).
Proof.
  revert acc. induction cs as [ | c cs IH ]; intros acc; simpl.
  - rewrite app_nil_r. reflexivity.
  - rewrite IH, <- app_assoc. reflexivity.
Qed.

Lemma total_ret {A : Type} (a : A) : total (ret a).
Proof. intros w. exists a. reflexivity. Qed.

Lemma total_bind {A B : Type} (c : M A) (k : A -> M B) :
  total c -> (forall a, total (k a)) -> total (bind c k).
Proof.
  intros Hc Hk w. unfold bind. destruct (Hc w) as [a Ha].
  destruct (c w) as [r w']. simpl in Ha. subst r. apply Hk.
Qed.

Lemma total_bind_lift {A B : Type} (r : Res A) (a : A) (k : A -> M B) :
  r = Ret a -> total (k a) -> total (bind (lift r) k).
Proof. intros -> Hk w. apply Hk. Qed.


Lemma total_d_Set (k : string) (v : Value) : total (d_Set k v).
Proof.
  intros w. unfold d_Set. destruct (SetField k v (data w)) as [err d']. eauto.
Qed.


Lemma total_setSometimes (attrs : GoMap) (ks : list string) :
  forallb (fun k => whenPresent isString (map_lookup attrs k)) ks = true ->
  total (setSometimes attrs ks).
Proof.
  induction ks as [ | k ks IH ]; simpl; intros H.
  - apply total_ret.
  - apply andb_true_iff in H as [Hk Hks].
    apply total_bind; [ | intros _; apply IH, Hks ].
    destruct (map_lookup attrs k) as [ val | ]; [ | apply total_ret ].
    simpl in Hk. apply isString_inv in Hk as [s ->].
    eapply total_bind_lift; [ reflexivity | apply total_d_Set ].
Qed.




Lemma d_Set_accept (k : string) (v : Value) (w : World) :
  rd_setError (data w) k v = None ->
  d_Set k v w = (Ret None, mkWorld (written_set k v (data w)) (calls w)).
Proof. intros H. unfold d_Set, SetField. rewrite H. reflexivity. Qed.

Lemma bind_lift_Ret {A B : Type} (a : A) (k : A -> M B) (w : World) :
  bind (lift (Ret a)) k w = k a w.
Proof. reflexivity. Qed.

Lemma bind_lift_Panic {A B : Type} (s : string) (k : A -> M B) (w : World) :
  bind (lift (Panic s)) k w = (Panic s, w).
Proof. reflexivity. Qed.

(** One step forward in the run of a callback on a host that accepts every
    [Set]. *)
Ltac forward Hacc :=
  first
    [ rewrite bind_lift_Ret
    | rewrite bind_lift_Panic
    | erewrite orReturn_continue by (apply d_Set_accept; simpl; apply Hacc)
    | erewrite bind_Ret by (apply d_Set_accept; simpl; apply Hacc) ];
  cbv beta zeta.






(** ** Trimming of the certificate and audience lists *)






Lemma stable_ret {A : Type} (P : ResourceData -> Prop) (a : A) : stable P (ret a).
Proof. intros w H. exact H. Qed.

Lemma stable_lift {A : Type} (P : ResourceData -> Prop) (r : Res A) : stable P (lift r).
Proof. intros w H. exact H. Qed.

Lemma stable_bind {A B : Type} (P : ResourceData -> Prop) (c : M A) (k : A -> M B) :
  stable P c -> (forall a, stable P (k a)) -> stable P (bind c k).
Proof.
  intros Hc Hk w HP. unfold bind. specialize (Hc w HP).
  destruct (c w) as [ [ a | s ] w' ]; simpl in *.
  - apply Hk. exact Hc.
  - exact Hc.
Qed.

Lemma stable_orReturn {E R : Type} (P : ResourceData -> Prop)
    (c : M (option E)) (f : E -> R) (k : M R) :
  stable P c -> stable P k -> stable P (orReturn c f k).
Proof.
  intros Hc Hk. apply stable_bind; [ exact Hc | ].
  intros [ e | ]; [ apply stable_ret | exact Hk ].
Qed.

Lemma stable_d_Set (P : ResourceData -> Prop) (k : string) (v : Value) :
  (forall d, P d -> P (written_set k v d)) -> stable P (d_Set k v).
Proof.
  intros HP w H. unfold d_Set, SetField.
  destruct (rd_setError (data w) k v); simpl; [ exact H | apply HP, H ].
Qed.

Lemma stable_d_SetId (P : ResourceData -> Prop) (id : string) :
  (forall d, P d -> P (SetId id d)) -> stable P (d_SetId id).
Proof. intros HP w H. apply HP, H. Qed.








Ltac climb_withIfSet :=
  match goal with
  | H : withIfSet ?d ?k ?mk ?a = Ret ?b |- In _ ?b =>
      apply (withIfSet_incl d k mk a b H)
  end.




(** * Further properties of the callbacks *)

(** ** Requests per callback *)







(** The read callback, unfolded after its remote call. *)
Lemma read_run (md : Client) (d : ResourceData) :
  run (resourceAuthMethodRead md) d =
    let w := mkWorld d [CallRead (Id d)] in
    match Read md (Id d) with
    | (_, Some e) =>
        if Z.eqb (StatusCode e) StatusNotFound then
          (Ret diag.nil, mkWorld (SetId "" d) [CallRead (Id d)])
        else (Ret (diag.Errorf "error reading auth method: %v" (Some e)), w)
    | (None, None) => (Ret (diag.Errorf "auth method nil after read" None), w)
    | (Some response, None) =>
        (check! setFromAuthMethodResponseMap response else diag.FromErr ;; ret diag.nil) w
    end.
Proof.
  unfold run, resourceAuthMethodRead, bind, getData, callRead, record, ret. simpl.
  destruct (Read md (Id d)) as [ [ response | ] [ e | ] ]; try reflexivity;
    destruct (Z.eqb (StatusCode e) StatusNotFound); reflexivity.
Qed.


(** ** The options of a create *)

Lemma withIfSet_Forall (P : authmethods.Option -> Prop) d k mk opts opts' :
  (isZero (Get d k) = false -> forall o, mk (Get d k) = Ret o -> P o) ->
  withIfSet d k mk opts = Ret opts' ->
  Forall P opts -> Forall P opts'.
Proof.
  intros Hmk H Hall. apply withIfSet_inv in H as [ [_ ->] | (Hz & o & Ho & ->) ].
  - exact Hall.
  - apply Forall_app. split; [ exact Hall | ].
    constructor; [ apply (Hmk Hz o Ho) | constructor ].
Qed.

(** Reads off the option a conversion function has built. *)
Ltac built_option Hmk :=
  simpl in Hmk;
  repeat (let x := fresh "x" in
          let Hx := fresh "Hx" in
          apply res_bind_Ret in Hmk as (x & Hx & Hmk));
  try discriminate Hmk; injection Hmk as <-.

Ltac every_create_option side :=
  repeat match goal with
    | H : withIfSet ?d ?k ?mk ?a = Ret ?b |- Forall _ ?b =>
        apply (fun Hside => withIfSet_Forall _ d k mk a b Hside H); [ side | ]
    end;
  try solve [ constructor ].

Lemma create_options_inv d t opts :
  resourceAuthMethodCreate_options d t = Ret (Some opts) ->
  exists opts0 opts1,
    resourceAuthMethodCreate_switch d t [] = Ret (Some opts0) /\
    withIfSet d NameKey
      (fun v => nameStr <~ as_string v ;; Ret (authmethods.WithName nameStr)) opts0
    = Ret opts1 /\
    withIfSet d DescriptionKey
      (fun v => descStr <~ as_string v ;; Ret (authmethods.WithDescription descStr)) opts1
    = Ret opts.
Proof.
  unfold resourceAuthMethodCreate_options. intros H.
  apply res_bind_Ret in H as (r & Hsw & H). destruct r as [ opts0 | ]; [ | discriminate ].
  apply res_bind_Ret in H as (opts1 & H1 & H). cbv beta in H.
  apply res_bind_Ret in H as (opts2 & H2 & H). injection H as <-.
  exists opts0, opts1. repeat split; assumption.
Qed.

(** X2: every option the create callback collects is a set option of a key
    that has an explicit value in the configuration: a key without one is left
    to the server's default, and no reset marker and no automatic versioning
    option is ever collected. The options of a password configuration are
    those of the name, the description and the password attributes; the
    options of an OIDC configuration are those of the name, the description
    and the OIDC attributes. *)
Theorem create_sends_only_explicit_values
    (d : ResourceData) (t : string) (opts : list authmethods.Option) :
  resourceAuthMethodCreate_options d t = Ret (Some opts) ->
  Forall (setsExplicitValue d) opts /\
  (t = authmethodTypePassword ->
   Forall (fun o => isCommonOption o || isPasswordOption o = true) opts) /\
  (t = authmethodTypeOidc ->
   Forall (fun o => isCommonOption o || isOidcOption o = true) opts).
Proof.
  intros H. apply create_options_inv in H as (opts0 & opts1 & Hsw & Hname & Hdesc).
  unfold resourceAuthMethodCreate_switch in Hsw.
  split; [ | split ].
  - destruct (String.eqb t authmethodTypePassword);
      [ | destruct (String.eqb t authmethodTypeOidc); [ | discriminate ] ];
      invert_chain Hsw; injection Hsw as <-;
      every_create_option
        ltac:(let Hz := fresh "Hz" in
              let o := fresh "o" in
              let Hmk := fresh "Hmk" in
              intros Hz o Hmk;
              match type of Hz with
              | isZero (Get ?d ?k) = false =>
                  destruct (Get d k) eqn:Hget; built_option Hmk;
                  exists k; split; [ reflexivity | rewrite Hget; exact Hz ]
              end).
  - intros ->. change (String.eqb authmethodTypePassword authmethodTypePassword) with true in Hsw.
    cbv iota in Hsw. invert_chain Hsw. injection Hsw as <-.
    every_create_option
      ltac:(let Hz := fresh "Hz" in
            let o := fresh "o" in
            let Hmk := fresh "Hmk" in
            intros Hz o Hmk;
            match type of Hz with
            | isZero (Get ?d ?k) = false =>
                destruct (Get d k); built_option Hmk; reflexivity
            end).
  - intros ->. change (String.eqb authmethodTypeOidc authmethodTypePassword) with false in Hsw.
    change (String.eqb authmethodTypeOidc authmethodTypeOidc) with true in Hsw.
    cbv iota in Hsw. invert_chain Hsw. injection Hsw as <-.
    every_create_option
      ltac:(let Hz := fresh "Hz" in
            let o := fresh "o" in
            let Hmk := fresh "Hmk" in
            intros Hz o Hmk;
            match type of Hz with
            | isZero (Get ?d ?k) = false =>
                destruct (Get d k); built_option Hmk; reflexivity
            end).
Qed.

Lemma create_sends_only_explicit_values_witness :
  Forall (setsExplicitValue passwordConfig)
    [ authmethods.WithPasswordAuthMethodMinLoginNameLength 5; authmethods.WithName "corp" ] /\
  Forall (fun o => isCommonOption o || isPasswordOption o = true)
    [ authmethods.WithPasswordAuthMethodMinLoginNameLength 5; authmethods.WithName "corp" ].
Proof.
  destruct (create_sends_only_explicit_values passwordConfig authmethodTypePassword
              [ authmethods.WithPasswordAuthMethodMinLoginNameLength 5;
                authmethods.WithName "corp" ]) as (Hexp & Hpw & _).
  - vm_compute. reflexivity.
  - split; [ exact Hexp | apply Hpw; reflexivity ].
Defined.

Lemma stringEach_map (l : list string) (acc : list string) :
  stringEach (map VString l) acc = Ret (acc ++ l).
Proof.
  revert acc. induction l as [ | s l IH ]; intros acc; simpl.
  - rewrite app_nil_r. reflexivity.
  - rewrite IH, <- app_assoc. reflexivity.
Qed.

Lemma isZero_string_list (l : list string) : l <> [] -> isZero (VList (map VString l)) = false.
Proof. destruct l; [ contradiction | reflexivity ]. Qed.

(** X3: the create callback sends the configured audiences and signing
    algorithms of an OIDC configuration element by element, in their order and
    untrimmed. *)
Theorem create_sends_audiences_and_algorithms_as_configured
    (d : ResourceData) (opts : list authmethods.Option) :
  resourceAuthMethodCreate_options d authmethodTypeOidc = Ret (Some opts) ->
  (forall l, Get d authmethodOidcAllowedAudiencesKey = VList (map VString l) -> l <> [] ->
     In (authmethods.WithOidcAuthMethodAllowedAudiences l) opts) /\
  (forall l, Get d authmethodOidcSigningAlgorithmsKey = VList (map VString l) -> l <> [] ->
     In (authmethods.WithOidcAuthMethodSigningAlgorithms l) opts).
Proof.
  intros H. apply create_options_inv in H as (opts0 & opts1 & Hsw & Hname & Hdesc).
  unfold resourceAuthMethodCreate_switch in Hsw.
  change (String.eqb authmethodTypeOidc authmethodTypePassword) with false in Hsw.
  change (String.eqb authmethodTypeOidc authmethodTypeOidc) with true in Hsw.
  cbv iota in Hsw. invert_chain Hsw. injection Hsw as <-.
  split; intros l Hget Hne;
    repeat first
      [ solve [ eapply withIfSet_emits;
                [ eassumption
                | rewrite Hget; apply isZero_string_list; exact Hne
                | rewrite Hget; cbn [as_list res_bind]; rewrite stringEach_map; reflexivity ] ]
      | climb_withIfSet ].
Qed.

Lemma create_sends_audiences_and_algorithms_as_configured_witness :
  In (authmethods.WithOidcAuthMethodAllowedAudiences [" aud "; "other"])
     [ authmethods.WithOidcAuthMethodIssuer "https://idp.example";
       authmethods.WithOidcAuthMethodAllowedAudiences [" aud "; "other"];
       authmethods.WithOidcAuthMethodSigningAlgorithms ["RS256"; "ES256"] ] /\
  In (authmethods.WithOidcAuthMethodSigningAlgorithms ["RS256"; "ES256"])
     [ authmethods.WithOidcAuthMethodIssuer "https://idp.example";
       authmethods.WithOidcAuthMethodAllowedAudiences [" aud "; "other"];
       authmethods.WithOidcAuthMethodSigningAlgorithms ["RS256"; "ES256"] ].
Proof.
  destruct (create_sends_audiences_and_algorithms_as_configured oidcConfig
              [ authmethods.WithOidcAuthMethodIssuer "https://idp.example";
                authmethods.WithOidcAuthMethodAllowedAudiences [" aud "; "other"];
                authmethods.WithOidcAuthMethodSigningAlgorithms ["RS256"; "ES256"] ])
    as (Haud & Halg).
  - vm_compute. reflexivity.
  - split.
    + apply Haud; [ reflexivity | discriminate ].
    + apply Halg; [ reflexivity | discriminate ].
Defined.

(** ** The remote call of a create *)

Lemma acceptsAll_written_set k v d : acceptsAll d -> acceptsAll (written_set k v d).
Proof. intros H k' v'. apply H. Qed.


Lemma create_run_call (md : Client) (d : ResourceData) (t scopeId : string)
    (opts : list authmethods.Option) :
  Get d TypeKey = VString t -> t <> "" ->
  resourceAuthMethodCreate_options d t = Ret (Some opts) ->
  Get d ScopeIdKey = VString scopeId -> scopeId <> "" ->
  run (resourceAuthMethodCreate md) d =
    let w := mkWorld d [CallCreate t scopeId opts] in
    match Create md t scopeId opts with
    | (_, Some e) => (Ret (diag.Errorf "error creating auth method: %v" (Some e)), w)
    | (None, None) => (Ret (diag.Errorf "nil auth method after create" None), w)
    | (Some response, None) =>
        (check! setFromAuthMethodResponseMap response else diag.FromErr ;; ret diag.nil) w
    end.
Proof.
  intros Ht Hne Hopts Hs Hsne. rewrite create_run. unfold GetOk. rewrite Ht, Hs.
  cbn [snd as_string]. rewrite (isZero_string t Hne), (isZero_string scopeId Hsne).
  cbn [negb]. rewrite Hopts. reflexivity.
Qed.



(** X5: a create whose request fails, or is answered by neither a result nor
    an error: the callback reports the error, respectively "nil auth method
    after create", after its one request, and leaves the record as it was; a
    result that comes with an error is not looked at. *)
Theorem create_reports_remote_failure
    (md : Client) (d : ResourceData) (t scopeId : string) (opts : list authmethods.Option) :
  Get d TypeKey = VString t -> t <> "" ->
  resourceAuthMethodCreate_options d t = Ret (Some opts) ->
  Get d ScopeIdKey = VString scopeId -> scopeId <> "" ->
  (forall amcr e, Create md t scopeId opts = (amcr, Some e) ->
     run (resourceAuthMethodCreate md) d =
       (Ret (diag.Errorf "error creating auth method: %v" (Some e)),
        mkWorld d [CallCreate t scopeId opts])) /\
  (Create md t scopeId opts = (None, None) ->
   run (resourceAuthMethodCreate md) d =
     (Ret (diag.Errorf "nil auth method after create" None),
      mkWorld d [CallCreate t scopeId opts])).
Proof.
  intros Ht Hne Hopts Hs Hsne.
  rewrite (create_run_call md d t scopeId opts Ht Hne Hopts Hs Hsne). cbv zeta.
  split.
  - intros amcr e ->. destruct amcr; reflexivity.
  - intros ->. reflexivity.
Qed.

Lemma create_reports_remote_failure_witness :
  run (resourceAuthMethodCreate brokenClient) bareConfig =
    (Ret (diag.Errorf "error creating auth method: %v" (Some errInternal)),
     mkWorld bareConfig [CallCreate "password" "global" []]) /\
  run (resourceAuthMethodCreate silentClient) bareConfig =
    (Ret (diag.Errorf "nil auth method after create" None),
     mkWorld bareConfig [CallCreate "password" "global" []]).
Proof.
  split.
  - eapply (proj1 (create_reports_remote_failure brokenClient bareConfig "password" "global" []
                     eq_refl ltac:(discriminate) eq_refl eq_refl ltac:(discriminate))).
    reflexivity.
  - apply (proj2 (create_reports_remote_failure silentClient bareConfig "password" "global" []
                    eq_refl ltac:(discriminate) eq_refl eq_refl ltac:(discriminate))).
    reflexivity.
Defined.

(** ** The remote call of a read *)

Lemma orReturn_return {E R : Type} (c : M (option E)) (f : E -> R) (k : M R)
    (w w' : World) (e : E) :
  c w = (Ret (Some e), w') -> orReturn c f k w = (Ret (f e), w').
Proof. unfold orReturn. intros H. rewrite (bind_Ret _ _ _ _ _ H). reflexivity. Qed.

(** The decoder on a response of an unknown type, from any state of the
    callback. *)
Lemma decode_unknown_type_at (raw : GoMap) (t : string) (w : World) :
  acceptsAll (data w) ->
  map_index raw TypeKey = VString t ->
  t <> authmethodTypePassword -> t <> authmethodTypeOidc ->
  setFromAuthMethodResponseMap raw w =
    (Ret (Some errorInvalidAuthMethodType),
     mkWorld
       (written_set TypeKey (map_index raw "type")
          (written_set ScopeIdKey (map_index raw "scope_id")
             (written_set DescriptionKey (map_index raw "description")
                (written_set NameKey (map_index raw "name") (data w)))))
       (calls w)).
Proof.
  intros Hacc Hty Hp Ho. unfold setFromAuthMethodResponseMap.
  do 4 forward Hacc. rewrite Hty. cbn [as_string]. forward Hacc.
  apply String.eqb_neq in Hp, Ho. rewrite Hp, Ho. reflexivity.
Qed.



(** X7: a read that is answered by neither a result nor an error reports "auth
    method nil after read" and leaves the record as it was. A read that is
    answered by a response of a type other than password and oidc reports the
    invalid auth method type error; the record keeps its id but has by then
    taken the name, description, scope id and type of the response. *)
Theorem read_failure_modes (md : Client) (d : ResourceData) :
  (Read md (Id d) = (None, None) ->
   run (resourceAuthMethodRead md) d =
     (Ret (diag.Errorf "auth method nil after read" None), mkWorld d [CallRead (Id d)])) /\
  (forall response t,
     acceptsAll d ->
     Read md (Id d) = (Some response, None) ->
     map_index response TypeKey = VString t ->
     t <> authmethodTypePassword -> t <> authmethodTypeOidc ->
     fst (run (resourceAuthMethodRead md) d) = Ret (diag.FromErr errorInvalidAuthMethodType) /\
     Id (data (snd (run (resourceAuthMethodRead md) d))) = Id d /\
     Get (data (snd (run (resourceAuthMethodRead md) d))) NameKey = map_index response "name" /\
     Get (data (snd (run (resourceAuthMethodRead md) d))) TypeKey = map_index response "type").
Proof.
  rewrite read_run. cbv zeta. split.
  - intros ->. reflexivity.
  - intros response t Hacc -> Hty Hp Ho.
    erewrite orReturn_return by (apply (decode_unknown_type_at response t); assumption).
    cbn [fst snd data]. repeat split.
    + unfold Get, written_set. cbn [rd_written].
      rewrite !lookup_insert_ne by discriminate. rewrite lookup_insert_eq. reflexivity.
    + unfold Get, written_set. cbn [rd_written]. rewrite lookup_insert_eq. reflexivity.
Qed.

Lemma read_failure_modes_witness :
  run (resourceAuthMethodRead silentClient) settledRecord =
    (Ret (diag.Errorf "auth method nil after read" None),
     mkWorld settledRecord [CallRead "ampw_1"]) /\
  (fst (run (resourceAuthMethodRead ldapClient) settledRecord) =
     Ret (diag.FromErr errorInvalidAuthMethodType) /\
   Id (data (snd (run (resourceAuthMethodRead ldapClient) settledRecord))) = "ampw_1" /\
   Get (data (snd (run (resourceAuthMethodRead ldapClient) settledRecord))) NameKey =
     VString "directory" /\
   Get (data (snd (run (resourceAuthMethodRead ldapClient) settledRecord))) TypeKey =
     VString "ldap").
Proof.
  split.
  - apply (proj1 (read_failure_modes silentClient settledRecord)). reflexivity.
  - apply (proj2 (read_failure_modes ldapClient settledRecord) ldapResponse "ldap");
      [ intros k v; reflexivity | reflexivity | reflexivity | discriminate | discriminate ].
Defined.

(** ** Failures of an update *)

(** X8: an update whose request fails: the callback reports the error after
    its one request and leaves the record as it was; the last block, which
    writes to the record, is not reached. *)
Theorem update_reports_remote_failure
    (locals : UpdateLocals) (md : Client) (d : ResourceData)
    (opts : list authmethods.Option) (e : error) :
  resourceAuthMethodUpdate_options d = Ret (Some opts) ->
  opts <> [] ->
  snd (Update md (Id d) 0%Z (opts ++ [authmethods.WithAutomaticVersioning true])) = Some e ->
  run (resourceAuthMethodUpdate locals md) d =
    (Ret (diag.Errorf "error updating auth method: %v" (Some e)),
     mkWorld d [CallUpdate (Id d) 0%Z (opts ++ [authmethods.WithAutomaticVersioning true])]).
Proof.
  intros Hopts Hne Herr. rewrite update_run, Hopts.
  destruct opts as [ | o opts ]; [ contradiction | ].
  cbv zeta. rewrite Herr. reflexivity.
Qed.

Lemma update_reports_remote_failure_witness :
  run (resourceAuthMethodUpdate noLocals brokenClient) movedRecord =
    (Ret (diag.Errorf "error updating auth method: %v" (Some errInternal)),
     mkWorld movedRecord
       [CallUpdate "ampw_1" 0%Z
          [ authmethods.DefaultName; authmethods.WithName "staff";
            authmethods.WithAutomaticVersioning true ]]).
Proof.
  apply (update_reports_remote_failure noLocals brokenClient movedRecord
           [ authmethods.DefaultName; authmethods.WithName "staff" ] errInternal).
  - vm_compute. reflexivity.
  - discriminate.
  - reflexivity.
Defined.

Lemma resetAndSetIfChanged_string_returns d k dflt mk opts s :
  Get d k = VString s ->
  exists opts',
    resetAndSetIfChanged d k dflt (fun v => x <~ as_string v ;; Ret (mk x)) opts = Ret opts'.
Proof.
  intros Hget. unfold resetAndSetIfChanged, withIfSet, GetOk. rewrite Hget.
  destruct (HasChange d k); [ | eauto ].
  destruct (negb (isZero (VString s))); simpl; eauto.
Qed.

(** X9: an update of a record whose type is neither password nor oidc: the
    callback reports the invalid auth method type error, sends nothing and
    leaves the record as it was, also when the name or the description has
    changed. *)
Theorem update_rejects_unknown_type
    (locals : UpdateLocals) (md : Client) (d : ResourceData) (t name description : string) :
  Get d TypeKey = VString t ->
  t <> authmethodTypePassword -> t <> authmethodTypeOidc ->
  Get d NameKey = VString name ->
  Get d DescriptionKey = VString description ->
  run (resourceAuthMethodUpdate locals md) d =
    (Ret (diag.FromErr errorInvalidAuthMethodType), mkWorld d []).
Proof.
  intros Ht Hp Ho Hname Hdesc. rewrite update_run.
  unfold resourceAuthMethodUpdate_options.
  destruct (resetAndSetIfChanged_string_returns d NameKey authmethods.DefaultName
              authmethods.WithName [] name Hname) as [opts1 ->].
  cbn [res_bind].
  destruct (resetAndSetIfChanged_string_returns d DescriptionKey authmethods.DefaultDescription
              authmethods.WithDescription opts1 description Hdesc) as [opts2 ->].
  cbn [res_bind]. rewrite Ht. cbn [as_string res_bind].
  unfold resourceAuthMethodUpdate_switch.
  apply String.eqb_neq in Hp, Ho. rewrite Hp, Ho. reflexivity.
Qed.

Lemma update_rejects_unknown_type_witness :
  HasChange renamedLdapRecord NameKey = true /\
  run (resourceAuthMethodUpdate noLocals quietClient) renamedLdapRecord =
    (Ret (diag.FromErr errorInvalidAuthMethodType), mkWorld renamedLdapRecord []).
Proof.
  split; [ vm_compute; reflexivity | ].
  apply (update_rejects_unknown_type noLocals quietClient renamedLdapRecord "ldap" "new" "");
    try reflexivity; discriminate.
Defined.

(** ** What an update leaves out *)

Lemma setIfChanged_unset d k mk opts :
  (HasChange d k = true -> isZero (Get d k) = true) ->
  setIfChanged d k mk opts = Ret opts.
Proof.
  intros H. unfold setIfChanged, withIfSet, GetOk.
  destruct (HasChange d k); [ | reflexivity ].
  rewrite (H eq_refl). reflexivity.
Qed.

(** X10: an update of an OIDC record whose name and description are unchanged
    and whose changed keys all lost their explicit value collects no option
    and sends nothing: the removal of OIDC attributes never reaches the remote
    service. *)
Theorem update_drops_oidc_removals (d : ResourceData) :
  Get d TypeKey = VString authmethodTypeOidc ->
  HasChange d NameKey = false ->
  HasChange d DescriptionKey = false ->
  (forall k, In k oidcUpdateKeys -> HasChange d k = true -> isZero (Get d k) = true) ->
  resourceAuthMethodUpdate_options d = Ret (Some []) /\
  forall (locals : UpdateLocals) (md : Client),
    calls (snd (run (resourceAuthMethodUpdate locals md) d)) = [].
Proof.
  intros Hty Hname Hdesc Hunset.
  assert (Hopts : resourceAuthMethodUpdate_options d = Ret (Some [])).
  { unfold resourceAuthMethodUpdate_options.
    rewrite (resetAndSetIfChanged_unchanged _ _ _ _ _ Hname). cbn [res_bind].
    rewrite (resetAndSetIfChanged_unchanged _ _ _ _ _ Hdesc). cbn [res_bind].
    rewrite Hty. cbn [as_string res_bind]. unfold resourceAuthMethodUpdate_switch.
    change (String.eqb authmethodTypeOidc authmethodTypePassword) with false.
    change (String.eqb authmethodTypeOidc authmethodTypeOidc) with true. cbv iota.
    repeat (rewrite setIfChanged_unset by (apply Hunset; cbn [oidcUpdateKeys In]; tauto);
            cbn [res_bind]).
    reflexivity. }
  split; [ exact Hopts | ].
  intros locals md. rewrite update_run, Hopts. apply silent_update_tail.
Qed.

Lemma update_drops_oidc_removals_witness :
  HasChange unsetIssuerRecord authmethodOidcIssuerKey = true /\
  resourceAuthMethodUpdate_options unsetIssuerRecord = Ret (Some []) /\
  calls (snd (run (resourceAuthMethodUpdate noLocals quietClient) unsetIssuerRecord)) = [].
Proof.
  split; [ vm_compute; reflexivity | ].
  destruct (update_drops_oidc_removals unsetIssuerRecord) as [Hopts Hcalls];
    try (vm_compute; reflexivity).
  - intros k Hin _. cbn [oidcUpdateKeys In] in Hin.
    repeat (destruct Hin as [ <- | Hin ]; [ vm_compute; reflexivity | ]).
    destruct Hin.
  - split; [ exact Hopts | apply Hcalls ].
Defined.

(** ** The order of the update options *)

Lemma withIfSet_app d k mk opts opts' :
  withIfSet d k mk opts = Ret opts' -> exists suf, opts' = opts ++ suf.
Proof.
  intros H. apply withIfSet_inv in H as [ [_ ->] | (_ & o & _ & ->) ].
  - exists []. rewrite app_nil_r. reflexivity.
  - eauto.
Qed.

Lemma setIfChanged_app d k mk opts opts' :
  setIfChanged d k mk opts = Ret opts' -> exists suf, opts' = opts ++ suf.
Proof.
  unfold setIfChanged. destruct (HasChange d k).
  - apply withIfSet_app.
  - intros [= <-]. exists []. rewrite app_nil_r. reflexivity.
Qed.

Lemma resetAndSetIfChanged_app d k dflt mk opts opts' :
  resetAndSetIfChanged d k dflt mk opts = Ret opts' -> exists suf, opts' = opts ++ suf.
Proof.
  unfold resetAndSetIfChanged. destruct (HasChange d k).
  - intros H. apply withIfSet_app in H as [suf ->]. rewrite <- app_assoc. eauto.
  - intros [= <-]. exists []. rewrite app_nil_r. reflexivity.
Qed.

Lemma resetAndSetIfChanged_pair d k dflt mk opts opts' o :
  resetAndSetIfChanged d k dflt mk opts = Ret opts' ->
  HasChange d k = true -> isZero (Get d k) = false -> mk (Get d k) = Ret o ->
  opts' = opts ++ [dflt; o].
Proof.
  unfold resetAndSetIfChanged. intros H Hc Hz Hmk. rewrite Hc in H.
  apply withIfSet_inv in H as [ [Hz' _] | (_ & o' & Ho' & ->) ]; [ congruence | ].
  rewrite Hmk in Ho'. injection Ho' as <-. rewrite <- app_assoc. reflexivity.
Qed.

Lemma update_switch_app d t opts0 opts :
  resourceAuthMethodUpdate_switch d t opts0 = Ret (Some opts) ->
  exists suf, opts = opts0 ++ suf.
Proof.
  unfold resourceAuthMethodUpdate_switch.
  destruct (String.eqb t authmethodTypePassword);
    [ | destruct (String.eqb t authmethodTypeOidc); [ | discriminate ] ];
    intros H; invert_chain H; injection H as <-;
    repeat match goal with
      | H : setIfChanged _ _ _ _ = Ret _ |- _ => apply setIfChanged_app in H as [? ->]
      | H : resetAndSetIfChanged _ _ _ _ _ = Ret _ |- _ =>
          apply resetAndSetIfChanged_app in H as [? ->]
      end;
    rewrite <- ?app_assoc; eauto.
Qed.

(** X11: in the options of an update, the reset marker of a changed name,
    description, minimum login name length or minimum password length with a
    new explicit value is directly followed by the set option of that value;
    for the name the two come first. *)
Theorem update_reset_is_followed_by_set (d : ResourceData) (opts : list authmethods.Option) :
  resourceAuthMethodUpdate_options d = Ret (Some opts) ->
  (forall s, HasChange d NameKey = true -> Get d NameKey = VString s -> s <> "" ->
     exists suf, opts = authmethods.DefaultName :: authmethods.WithName s :: suf) /\
  (forall s, HasChange d DescriptionKey = true -> Get d DescriptionKey = VString s -> s <> "" ->
     adjacent authmethods.DefaultDescription (authmethods.WithDescription s) opts) /\
  (forall i, Get d TypeKey = VString authmethodTypePassword ->
     HasChange d authmethodMinLoginNameLengthKey = true ->
     Get d authmethodMinLoginNameLengthKey = VInt i -> i <> 0%Z ->
     adjacent authmethods.DefaultPasswordAuthMethodMinLoginNameLength
       (authmethods.WithPasswordAuthMethodMinLoginNameLength (uint32 i)) opts) /\
  (forall i, Get d TypeKey = VString authmethodTypePassword ->
     HasChange d authmethodMinPasswordLengthKey = true ->
     Get d authmethodMinPasswordLengthKey = VInt i -> i <> 0%Z ->
     adjacent authmethods.DefaultPasswordAuthMethodMinPasswordLength
       (authmethods.WithPasswordAuthMethodMinPasswordLength (uint32 i)) opts).
Proof.
  intros H. apply update_options_inv in H as (opts1 & opts2 & t & Hname & Hdesc & Ht & Hsw).
  split; [ | split; [ | split ] ].
  - intros s Hc Hget Hs.
    apply (resetAndSetIfChanged_pair _ _ _ _ _ _ (authmethods.WithName s)) in Hname;
      [ | exact Hc | rewrite Hget; apply isZero_string, Hs | rewrite Hget; reflexivity ].
    apply resetAndSetIfChanged_app in Hdesc as [suf1 ->].
    apply update_switch_app in Hsw as [suf2 ->]. subst opts1.
    exists (suf1 ++ suf2). rewrite <- app_assoc. reflexivity.
  - intros s Hc Hget Hs.
    apply (resetAndSetIfChanged_pair _ _ _ _ _ _ (authmethods.WithDescription s)) in Hdesc;
      [ | exact Hc | rewrite Hget; apply isZero_string, Hs | rewrite Hget; reflexivity ].
    apply update_switch_app in Hsw as [suf2 ->]. subst opts2.
    exists opts1, suf2. rewrite <- app_assoc. reflexivity.
  - intros i Hty Hc Hget Hi. rewrite Hty in Ht. injection Ht as <-.
    apply update_switch_password_inv in Hsw as (opts3 & Hlogin & Hpass).
    apply (resetAndSetIfChanged_pair _ _ _ _ _ _
             (authmethods.WithPasswordAuthMethodMinLoginNameLength (uint32 i))) in Hlogin;
      [ | exact Hc | rewrite Hget; apply isZero_int, Hi | rewrite Hget; reflexivity ].
    apply resetAndSetIfChanged_app in Hpass as [suf ->]. subst opts3.
    exists opts2, suf. rewrite <- app_assoc. reflexivity.
  - intros i Hty Hc Hget Hi. rewrite Hty in Ht. injection Ht as <-.
    apply update_switch_password_inv in Hsw as (opts3 & Hlogin & Hpass).
    apply (resetAndSetIfChanged_pair _ _ _ _ _ _
             (authmethods.WithPasswordAuthMethodMinPasswordLength (uint32 i))) in Hpass;
      [ | exact Hc | rewrite Hget; apply isZero_int, Hi | rewrite Hget; reflexivity ].
    subst opts. exists opts3, []. reflexivity.
Qed.

Lemma update_reset_is_followed_by_set_witness :
  (exists suf,
     [ authmethods.DefaultName; authmethods.WithName "staff";
       authmethods.DefaultDescription; authmethods.WithDescription "people";
       authmethods.DefaultPasswordAuthMethodMinLoginNameLength;
       authmethods.WithPasswordAuthMethodMinLoginNameLength 6 ]
     = authmethods.DefaultName :: authmethods.WithName "staff" :: suf) /\
  adjacent authmethods.DefaultPasswordAuthMethodMinLoginNameLength
    (authmethods.WithPasswordAuthMethodMinLoginNameLength (uint32 6))
    [ authmethods.DefaultName; authmethods.WithName "staff";
      authmethods.DefaultDescription; authmethods.WithDescription "people";
      authmethods.DefaultPasswordAuthMethodMinLoginNameLength;
      authmethods.WithPasswordAuthMethodMinLoginNameLength 6 ].
Proof.
  destruct (update_reset_is_followed_by_set editedRecord
              [ authmethods.DefaultName; authmethods.WithName "staff";
                authmethods.DefaultDescription; authmethods.WithDescription "people";
                authmethods.DefaultPasswordAuthMethodMinLoginNameLength;
                authmethods.WithPasswordAuthMethodMinLoginNameLength 6 ])
    as (Hname & _ & Hlogin & _).
  - vm_compute. reflexivity.
  - split.
    + apply Hname; [ vm_compute; reflexivity | vm_compute; reflexivity | discriminate ].
    + apply Hlogin; [ vm_compute; reflexivity | vm_compute; reflexivity
                    | vm_compute; reflexivity | discriminate ].
Defined.

(** ** What an update writes *)

Lemma stable_d_HasChange (P : ResourceData -> Prop) (k : string) : stable P (d_HasChange k).
Proof. intros w H. exact H. Qed.

Lemma stable_setIfHasChange (P : ResourceData -> Prop) (k : string) (v : Value) :
  (forall d, P d -> HasChange d k = true -> P (written_set k v d)) ->
  stable P (setIfHasChange k v).
Proof.
  intros HP w H. unfold setIfHasChange, bind, d_HasChange.
  destruct (HasChange (data w) k) eqn:Hc; [ | exact H ].
  unfold d_Set, SetField. destruct (rd_setError (data w) k v); simpl; [ exact H | ].
  apply HP; assumption.
Qed.

Lemma stable_update_tail (P : ResourceData -> Prop) (locals : UpdateLocals) :
  (forall k v d, In k updateWrittenKeys -> P d -> HasChange d k = true ->
     P (written_set k v d)) ->
  stable P (resourceAuthMethodUpdate_tail locals).
Proof.
  intros HP. unfold resourceAuthMethodUpdate_tail.
  repeat (apply stable_orReturn;
          [ apply stable_setIfHasChange; intros d; apply HP;
            cbn [updateWrittenKeys In]; tauto | ]).
  apply stable_ret.
Qed.

Lemma update_keeps (P : ResourceData -> Prop)
    (locals : UpdateLocals) (md : Client) (d : ResourceData) :
  (forall k v d, In k updateWrittenKeys -> P d -> HasChange d k = true ->
     P (written_set k v d)) ->
  P d -> P (data (snd (run (resourceAuthMethodUpdate locals md) d))).
Proof.
  intros HP Hd. rewrite update_run.
  destruct (resourceAuthMethodUpdate_options d) as [ [ opts | ] | s ]; try exact Hd.
  destruct opts as [ | o opts ].
  - apply (stable_update_tail P locals HP). exact Hd.
  - cbv zeta.
    destruct (snd (Update md (Id d) 0%Z
                     ((o :: opts) ++ [authmethods.WithAutomaticVersioning true])));
      [ exact Hd | ].
    apply (stable_update_tail P locals HP). exact Hd.
Qed.

(** X12: the update callback never changes the id, the previous values or the
    desired values of the record, and the only values it writes are those of a
    changed name, description, minimum login name length or minimum password
    length: what was written under any other key, or under a key that has not
    changed, stays as it was. *)
Theorem update_writes_only_changed_keys_of_four
    (locals : UpdateLocals) (md : Client) (d : ResourceData) (k : string) :
  ~ In k updateWrittenKeys \/ HasChange d k = false ->
  Id (data (snd (run (resourceAuthMethodUpdate locals md) d))) = Id d /\
  rd_prior (data (snd (run (resourceAuthMethodUpdate locals md) d))) = rd_prior d /\
  rd_planned (data (snd (run (resourceAuthMethodUpdate locals md) d))) = rd_planned d /\
  rd_written (data (snd (run (resourceAuthMethodUpdate locals md) d))) !! k =
    rd_written d !! k.
Proof.
  intros Hk.
  apply (update_keeps
           (fun d' => Id d' = Id d /\ rd_prior d' = rd_prior d /\
                      rd_planned d' = rd_planned d /\
                      rd_written d' !! k = rd_written d !! k)).
  - intros k' v d' Hin (Hid & Hprior & Hplanned & Hw) Hc.
    repeat split; try assumption.
    unfold written_set. cbn [rd_written].
    destruct (decide (k' = k)) as [ -> | Hne ].
    + destruct Hk as [ Hnot | Hsame ]; [ contradiction | ].
      unfold HasChange, oldValue, newValue in Hc, Hsame.
      rewrite Hprior, Hplanned in Hc. congruence.
    + rewrite lookup_insert_ne by exact Hne. exact Hw.
  - repeat split.
Qed.

Lemma update_writes_only_changed_keys_of_four_witness :
  Id (data (snd (run (resourceAuthMethodUpdate noLocals quietClient) editedRecord))) =
    "ampw_1" /\
  rd_prior (data (snd (run (resourceAuthMethodUpdate noLocals quietClient) editedRecord))) =
    rd_prior editedRecord /\
  rd_planned (data (snd (run (resourceAuthMethodUpdate noLocals quietClient) editedRecord))) =
    rd_planned editedRecord /\
  rd_written (data (snd (run (resourceAuthMethodUpdate noLocals quietClient) editedRecord)))
    !! ScopeIdKey = rd_written editedRecord !! ScopeIdKey.
Proof.
  apply (update_writes_only_changed_keys_of_four noLocals quietClient editedRecord ScopeIdKey).
  right. vm_compute. reflexivity.
Defined.

(** ** The options of an update and the type of the record *)

Lemma resetAndSetIfChanged_Forall (P : authmethods.Option -> Prop) d k dflt mk opts opts' :
  P dflt ->
  (forall o, mk (Get d k) = Ret o -> P o) ->
  resetAndSetIfChanged d k dflt mk opts = Ret opts' ->
  Forall P opts -> Forall P opts'.
Proof.
  intros Hd Hmk. unfold resetAndSetIfChanged. destruct (HasChange d k).
  - intros H Hall. apply (withIfSet_Forall P d k mk (opts ++ [dflt]) opts').
    + intros _. exact Hmk.
    + exact H.
    + apply Forall_app. split; [ exact Hall | constructor; [ exact Hd | constructor ] ].
  - intros [= <-] Hall. exact Hall.
Qed.

Lemma setIfChanged_Forall (P : authmethods.Option -> Prop) d k mk opts opts' :
  (forall o, mk (Get d k) = Ret o -> P o) ->
  setIfChanged d k mk opts = Ret opts' ->
  Forall P opts -> Forall P opts'.
Proof.
  intros Hmk. unfold setIfChanged. destruct (HasChange d k).
  - apply withIfSet_Forall. intros _. exact Hmk.
  - intros [= <-] Hall. exact Hall.
Qed.

Ltac every_update_option :=
  repeat match goal with
    | H : setIfChanged ?d ?k ?mk ?a = Ret ?b |- Forall _ ?b =>
        apply (fun Hside => setIfChanged_Forall _ d k mk a b Hside H);
        [ let o := fresh "o" in
          let Hmk := fresh "Hmk" in
          intros o Hmk; destruct (Get d k); built_option Hmk; reflexivity | ]
    | H : resetAndSetIfChanged ?d ?k ?dflt ?mk ?a = Ret ?b |- Forall _ ?b =>
        apply (fun Hd Hside => resetAndSetIfChanged_Forall _ d k dflt mk a b Hd Hside H);
        [ reflexivity
        | let o := fresh "o" in
          let Hmk := fresh "Hmk" in
          intros o Hmk; destruct (Get d k); built_option Hmk; reflexivity | ]
    end;
  try solve [ constructor ].

(** X13: the options an update collects belong to the record's type: for a
    password record they are options of the name, the description and the
    password attributes, for an OIDC record options of the name, the
    description and the OIDC attributes; the automatic versioning option is
    not among them. *)
Theorem update_options_match_the_type (d : ResourceData) (opts : list authmethods.Option) :
  resourceAuthMethodUpdate_options d = Ret (Some opts) ->
  (Get d TypeKey = VString authmethodTypePassword ->
   Forall (fun o => isCommonOption o || isPasswordOption o = true) opts) /\
  (Get d TypeKey = VString authmethodTypeOidc ->
   Forall (fun o => isCommonOption o || isOidcOption o = true) opts).
Proof.
  intros H. apply update_options_inv in H as (opts1 & opts2 & t & Hname & Hdesc & Ht & Hsw).
  split; intros Hty; rewrite Hty in Ht; injection Ht as <-;
    unfold resourceAuthMethodUpdate_switch in Hsw.
  - change (String.eqb authmethodTypePassword authmethodTypePassword) with true in Hsw.
    cbv iota in Hsw. invert_chain Hsw. injection Hsw as <-. every_update_option.
  - change (String.eqb authmethodTypeOidc authmethodTypePassword) with false in Hsw.
    change (String.eqb authmethodTypeOidc authmethodTypeOidc) with true in Hsw.
    cbv iota in Hsw. invert_chain Hsw. injection Hsw as <-. every_update_option.
Qed.

Lemma update_options_match_the_type_witness :
  Forall (fun o => isCommonOption o || isPasswordOption o = true)
    [ authmethods.DefaultName; authmethods.WithName "staff";
      authmethods.DefaultDescription; authmethods.WithDescription "people";
      authmethods.DefaultPasswordAuthMethodMinLoginNameLength;
      authmethods.WithPasswordAuthMethodMinLoginNameLength 6 ].
Proof.
  apply (proj1 (update_options_match_the_type editedRecord _ ltac:(vm_compute; reflexivity))).
  vm_compute. reflexivity.
Defined.

(** ** Errors of [Set] in the decoder *)

(** X14: when the host refuses the name of the response, the decoder returns
    the host's error at once: nothing else is set and the id stays as it was. *)
Theorem decode_stops_at_refused_name (raw : GoMap) (d : ResourceData) (e : error) :
  rd_setError d NameKey (map_index raw "name") = Some e ->
  run (setFromAuthMethodResponseMap raw) d = (Ret (Some e), mkWorld d []).
Proof.
  intros H. unfold run, setFromAuthMethodResponseMap.
  apply orReturn_return. unfold d_Set, SetField. cbn [data calls]. rewrite H. reflexivity.
Qed.

Lemma decode_stops_at_refused_name_witness :
  run (setFromAuthMethodResponseMap passwordResponse) closedRecord =
    (Ret (Some (SetError "invalid address")), mkWorld closedRecord []).
Proof.
  apply (decode_stops_at_refused_name passwordResponse closedRecord). reflexivity.
Defined.

Lemma returns_ret {A : Type} (a : A) : returns a (ret a).
Proof. intros w. reflexivity. Qed.

Lemma returns_bind {A B : Type} (b : B) (c : M A) (k : A -> M B) :
  total c -> (forall a, returns b (k a)) -> returns b (bind c k).
Proof.
  intros Hc Hk w. unfold bind. destruct (Hc w) as [a Ha].
  destruct (c w) as [r w']. simpl in Ha. subst r. apply Hk.
Qed.

Lemma returns_bind_lift {A B : Type} (b : B) (r : Res A) (a : A) (k : A -> M B) :
  r = Ret a -> returns b (k a) -> returns b (bind (lift r) k).
Proof. intros -> Hk w. apply Hk. Qed.

Lemma total_optional_list_set (attrs : GoMap) (k : string) :
  whenPresent isList (map_lookup attrs k) = true ->
  total (match map_lookup attrs k with
         | Some val => l <- lift (as_list val) ;; d_Set k (VList l)
         | None => ret None
         end).
Proof.
  destruct (map_lookup attrs k) as [ val | ]; [ | intros _; apply total_ret ].
  simpl. intros H. apply isList_inv in H as [l ->].
  eapply total_bind_lift; [ reflexivity | apply total_d_Set ].
Qed.

Lemma decode_oidc_returns_nil (raw : GoMap) :
  wellFormedAttributes wellFormedOidc raw = true ->
  returns None (setFromAuthMethodResponseMap_oidc raw).
Proof.
  unfold wellFormedAttributes, setFromAuthMethodResponseMap_oidc.
  destruct (map_lookup raw "attributes") as [ [ | | | | | | | attrs ] | ];
    try discriminate; [ | intros _; apply returns_ret ].
  unfold wellFormedOidc. intros H.
  repeat (let H' := fresh "H" in apply andb_true_iff in H as [H H']).
  eapply returns_bind_lift; [ reflexivity | ].
  apply isString_inv in H as [s1 ->]. apply isString_inv in H7 as [s2 ->].
  apply isString_inv in H6 as [s3 ->]. apply isString_inv in H5 as [s4 ->].
  apply isStringList_inv in H4 as (cs & -> & Hcs).
  apply isStringList_inv in H3 as (auds & -> & Hauds).
  apply isNumber_inv in H2 as [n ->].
  destruct (trimEach_strings cs [] Hcs) as [stripC HstripC].
  destruct (trimEach_strings auds [] Hauds) as [stripA HstripA].
  do 4 (eapply returns_bind_lift; [ reflexivity | ];
        apply returns_bind; [ apply total_d_Set | intros _ ]).
  eapply returns_bind_lift; [ reflexivity | ].
  eapply returns_bind_lift; [ exact HstripC | ].
  apply returns_bind; [ apply total_d_Set | intros _ ].
  eapply returns_bind_lift; [ reflexivity | ].
  eapply returns_bind_lift; [ exact HstripA | ].
  apply returns_bind; [ apply total_d_Set | intros _ ].
  eapply returns_bind_lift; [ reflexivity | ].
  apply returns_bind; [ apply total_d_Set | intros _ ].
  apply returns_bind; [ apply total_setSometimes; exact H1 | intros _ ].
  apply returns_bind; [ apply total_optional_list_set; exact H0 | intros _ ].
  apply returns_ret.
Qed.

(** X15: the decoder drops the errors that [Set] returns for the OIDC
    attributes: on a host that accepts the name, description, scope id and
    type, an OIDC response with well typed attributes and a string id is
    decoded with no error and its id is taken over, whatever the host answers
    to the [Set] of an attribute. *)
Theorem decode_oidc_drops_set_errors (raw : GoMap) (d : ResourceData) (id : string) :
  (forall k v, In k leadingKeys -> rd_setError d k v = None) ->
  map_index raw TypeKey = VString authmethodTypeOidc ->
  wellFormedAttributes wellFormedOidc raw = true ->
  map_index raw "id" = VString id ->
  fst (run (setFromAuthMethodResponseMap raw) d) = Ret None /\
  Id (data (snd (run (setFromAuthMethodResponseMap raw) d))) = id.
Proof.
  intros Hacc Hty Hattrs Hid. unfold run, setFromAuthMethodResponseMap.
  do 4 (erewrite orReturn_continue
          by (apply d_Set_accept; simpl; apply Hacc; cbn [leadingKeys In]; tauto)).
  rewrite Hty. cbn [as_string]. rewrite bind_lift_Ret.
  change (String.eqb authmethodTypeOidc authmethodTypePassword) with false.
  change (String.eqb authmethodTypeOidc authmethodTypeOidc) with true. cbv iota.
  match goal with
  | |- context [ orReturn _ _ _ ?w ] =>
      pose proof (decode_oidc_returns_nil raw Hattrs w) as Hnil;
      destruct (setFromAuthMethodResponseMap_oidc raw w) as [r w1] eqn:Hrun
  end.
  simpl in Hnil. subst r.
  rewrite (orReturn_continue _ _ _ _ _ Hrun).
  rewrite Hid. cbn [as_string]. rewrite bind_lift_Ret.
  unfold bind, d_SetId, ret. cbn [fst snd data]. split; reflexivity.
Qed.

Lemma decode_oidc_drops_set_errors_witness :
  rd_setError strictRecord authmethodOidcStateKey (VString "inactive") =
    Some (SetError "invalid address") /\
  fst (run (setFromAuthMethodResponseMap oidcEcho) strictRecord) = Ret None /\
  Id (data (snd (run (setFromAuthMethodResponseMap oidcEcho) strictRecord))) = "amoidc_1".
Proof.
  split; [ reflexivity | ].
  apply (decode_oidc_drops_set_errors oidcEcho strictRecord "amoidc_1");
    try reflexivity.
  intros k v Hin. cbn [leadingKeys In] in Hin.
  repeat (destruct Hin as [ <- | Hin ]; [ reflexivity | ]). destruct Hin.
Defined.

(** ** Missing keys of a response *)




(** ** Optional keys of an OIDC response *)

Lemma stable_bind_lift (P : ResourceData -> Prop) {A B : Type} (r : Res A) (k : A -> M B) :
  (forall a, r = Ret a -> stable P (k a)) -> stable P (bind (lift r) k).
Proof.
  intros Hk w H. destruct r as [ a | s ]; [ | exact H ].
  apply (Hk a eq_refl). exact H.
Qed.

Lemma stable_setSometimes_present (P : ResourceData -> Prop) (attrs : GoMap) (ks : list string) :
  (forall k val v d, In k ks -> map_lookup attrs k = Some val -> P d -> P (written_set k v d)) ->
  stable P (setSometimes attrs ks).
Proof.
  induction ks as [ | k ks IH ]; intros HP; simpl.
  - apply stable_ret.
  - apply stable_bind.
    + destruct (map_lookup attrs k) as [ val | ] eqn:Hk; [ | apply stable_ret ].
      apply stable_bind; [ apply stable_lift | ].
      intros s. apply stable_d_Set. intros d. apply (HP k val); [ left; reflexivity | exact Hk ].
    + intros _. apply IH. intros k' val v d Hin. apply (HP k' val). right. exact Hin.
Qed.

Lemma kept_written_set (k k' : string) (v : Value) (x : option Value) (d : ResourceData) :
  k' <> k -> rd_written d !! k = x -> rd_written (written_set k' v d) !! k = x.
Proof.
  intros Hne H. unfold written_set. cbn [rd_written].
  rewrite lookup_insert_ne by exact Hne. exact H.
Qed.

(** Proves that a fragment of the decoder keeps what is written under a key
    that the response does not have. *)
Ltac keeps_absent Habsent :=
  repeat first
    [ apply stable_ret
    | apply stable_lift
    | apply stable_d_Set; intros ? ?; apply kept_written_set; [ discriminate | assumption ]
    | apply stable_d_SetId; intros ? ?; assumption
    | apply stable_setSometimes_present;
      let Hin := fresh "Hin" in
      let Hval := fresh "Hval" in
      intros ? ? ? ? Hin Hval ?; apply kept_written_set;
      [ cbn [In] in Hin; intros ->; rewrite Habsent in Hval; discriminate Hval
      | assumption ]
    | apply stable_orReturn
    | apply stable_bind; [ | intros ? ]
    | match goal with
      | |- stable _ (match map_lookup ?m ?k with _ => _ end) =>
          let Hval := fresh "Hval" in
          destruct (map_lookup m k) eqn:Hval;
          try (rewrite Habsent in Hval; discriminate Hval)
      | |- stable _ (if ?b then _ else _) => destruct b
      end ].

(** X17: the decoder leaves alone what the record holds under the API URL
    prefix, the callback URL, the validation switch and the signing algorithms
    when the attributes of the response do not have the key: a missing
    optional key does not clear the local value. *)
Theorem decode_keeps_absent_optional_keys (raw : GoMap) (d : ResourceData) (k : string) :
  In k optionalOidcKeys ->
  (forall attrs, map_lookup raw "attributes" = Some (VMap attrs) -> map_lookup attrs k = None) ->
  rd_written (data (snd (run (setFromAuthMethodResponseMap raw) d))) !! k = rd_written d !! k.
Proof.
  intros Hin Habsent.
  assert (Hst : stable (fun d' => rd_written d' !! k = rd_written d !! k)
                  (setFromAuthMethodResponseMap raw)).
  { unfold setFromAuthMethodResponseMap.
    cbn [optionalOidcKeys In] in Hin.
    assert (Hpw : stable (fun d' => rd_written d' !! k = rd_written d !! k)
                    (setFromAuthMethodResponseMap_password raw)).
    { unfold setFromAuthMethodResponseMap_password.
      destruct Hin as [ <- | [ <- | [ <- | [ <- | [] ] ] ] ];
        (destruct (map_lookup raw "attributes"); [ | apply stable_ret ]);
        keeps_absent Habsent. }
    assert (Hoidc : stable (fun d' => rd_written d' !! k = rd_written d !! k)
                      (setFromAuthMethodResponseMap_oidc raw)).
    { unfold setFromAuthMethodResponseMap_oidc.
      destruct (map_lookup raw "attributes") as [ attrsVal | ] eqn:Hattrs;
        [ | apply stable_ret ].
      apply stable_bind_lift. intros attrs Hmap.
      destruct attrsVal; try discriminate Hmap. injection Hmap as ->.
      specialize (Habsent attrs eq_refl).
      destruct Hin as [ <- | [ <- | [ <- | [ <- | [] ] ] ] ]; keeps_absent Habsent. }
    destruct Hin as [ <- | [ <- | [ <- | [ <- | [] ] ] ] ];
      repeat first
        [ exact Hpw | exact Hoidc
        | apply stable_ret
        | apply stable_lift
        | apply stable_d_Set; intros ? ?; apply kept_written_set;
          [ discriminate | assumption ]
        | apply stable_d_SetId; intros ? ?; assumption
        | apply stable_orReturn
        | apply stable_bind; [ | intros ? ]
        | match goal with
          | |- stable _ (if ?b then _ else _) => destruct b
          end ]. }
  apply (Hst (mkWorld d [])). reflexivity.
Qed.

Lemma decode_keeps_absent_optional_keys_witness :
  rd_written (data (snd (run (setFromAuthMethodResponseMap oidcEcho) prefixedRecord)))
    !! authmethodOidcApiUrlPrefixKey = Some (VString "https://api.example").
Proof.
  change (Some (VString "https://api.example"))
    with (rd_written prefixedRecord !! authmethodOidcApiUrlPrefixKey).
  apply decode_keeps_absent_optional_keys.
  - left. reflexivity.
  - intros attrs Hattrs. vm_compute in Hattrs. injection Hattrs as <-. reflexivity.
Defined.

Lemma setSometimes_cons (attrs : GoMap) (k : string) (ks : list string) (w : World) :
  setSometimes attrs (k :: ks) w =
    match map_lookup attrs k with
    | Some val =>
        match as_string val with
        | Ret s =>
            let '(_, w') := d_Set k (VString s) w in setSometimes attrs ks w'
        | Panic msg => (Panic msg, w)
        end
    | None => setSometimes attrs ks w
    end.
Proof.
  cbn [setSometimes]. unfold bind at 1.
  destruct (map_lookup attrs k) as [ val | ]; [ | reflexivity ].
  unfold bind at 1. unfold lift at 1.
  destruct (as_string val) as [ s | msg ]; [ | reflexivity ].
  unfold d_Set. destruct (SetField k (VString s) (data w)). reflexivity.
Qed.

(** X18: the decoder asserts that the validation switch of an OIDC response is
    a string: a response whose other fields are well typed and whose switch is
    a JSON bool makes it panic. *)
Theorem decode_oidc_bool_switch_panics
    (raw attrs : GoMap) (d : ResourceData) (b : bool) :
  acceptsAll d ->
  map_index raw TypeKey = VString authmethodTypeOidc ->
  map_lookup raw "attributes" = Some (VMap attrs) ->
  oidcRequiredTyped attrs = true ->
  whenPresent isString (map_lookup attrs authmethodOidcApiUrlPrefixKey) = true ->
  whenPresent isString (map_lookup attrs authmethodOidcCallbackUrlKey) = true ->
  map_lookup attrs authmethodOidcDisableDiscoveredConfigValidationKey = Some (VBool b) ->
  fst (run (setFromAuthMethodResponseMap raw) d) =
    Panic "interface conversion: not a string".
Proof.
  intros Hacc Hty Hattrs Hreq Hprefix Hcallback Hswitch.
  unfold run, setFromAuthMethodResponseMap.
  do 4 forward Hacc. rewrite Hty. cbn [as_string]. forward Hacc.
  change (String.eqb authmethodTypeOidc authmethodTypePassword) with false.
  change (String.eqb authmethodTypeOidc authmethodTypeOidc) with true. cbv iota.
  unfold setFromAuthMethodResponseMap_oidc. rewrite Hattrs. cbn [as_map].
  unfold oidcRequiredTyped in Hreq.
  repeat (let H' := fresh "H" in apply andb_true_iff in Hreq as [Hreq H']).
  apply isString_inv in Hreq as [s1 Hs1]. apply isString_inv in H4 as [s2 Hs2].
  apply isString_inv in H3 as [s3 Hs3]. apply isString_inv in H2 as [s4 Hs4].
  apply isStringList_inv in H1 as (cs & Hcs & Hcs').
  apply isStringList_inv in H0 as (auds & Hauds & Hauds').
  apply isNumber_inv in H as [n Hn].
  destruct (trimEach_strings cs [] Hcs') as [stripC HstripC].
  destruct (trimEach_strings auds [] Hauds') as [stripA HstripA].
  unfold orReturn at 1. unfold bind at 1.
  forward Hacc. rewrite Hs1. cbn [as_string]. forward Hacc. forward Hacc.
  rewrite Hs2. cbn [as_string]. forward Hacc. forward Hacc.
  rewrite Hs3. cbn [as_string]. forward Hacc. forward Hacc.
  rewrite Hs4. cbn [as_string]. forward Hacc. forward Hacc.
  rewrite Hcs. cbn [as_list]. forward Hacc. rewrite HstripC. forward Hacc. forward Hacc.
  rewrite Hauds. cbn [as_list]. forward Hacc. rewrite HstripA. forward Hacc. forward Hacc.
  rewrite Hn. cbn [as_number]. forward Hacc. forward Hacc.
  unfold bind at 1.
  rewrite setSometimes_cons.
  destruct (map_lookup attrs authmethodOidcApiUrlPrefixKey) as [ v1 | ].
  - simpl in Hprefix. apply isString_inv in Hprefix as [p ->]. cbn [as_string].
    rewrite d_Set_accept by (simpl; apply Hacc).
    rewrite setSometimes_cons.
    destruct (map_lookup attrs authmethodOidcCallbackUrlKey) as [ v2 | ].
    + simpl in Hcallback. apply isString_inv in Hcallback as [c ->]. cbn [as_string].
      rewrite d_Set_accept by (simpl; apply Hacc).
      rewrite setSometimes_cons, Hswitch. reflexivity.
    + rewrite setSometimes_cons, Hswitch. reflexivity.
  - rewrite setSometimes_cons.
    destruct (map_lookup attrs authmethodOidcCallbackUrlKey) as [ v2 | ].
    + simpl in Hcallback. apply isString_inv in Hcallback as [c ->]. cbn [as_string].
      rewrite d_Set_accept by (simpl; apply Hacc).
      rewrite setSometimes_cons, Hswitch. reflexivity.
    + rewrite setSometimes_cons, Hswitch. reflexivity.
Qed.

Lemma decode_oidc_bool_switch_panics_witness :
  fst (run (setFromAuthMethodResponseMap oidcBoolResponse) settledRecord) =
    Panic "interface conversion: not a string".
Proof.
  eapply (decode_oidc_bool_switch_panics oidcBoolResponse _ settledRecord true);
    try reflexivity.
  intros k v. reflexivity.
Defined.

(** ** Trimming *)

Lemma trimLeft_first (s : string) : firstIsSpace (trimLeft s) = false.
Proof.
  induction s as [ | c s IH ]; simpl; [ reflexivity | ].
  destruct (isSpace c) eqn:Hc; [ exact IH | simpl; exact Hc ].
Qed.

Lemma trimRight_first (s : string) :
  firstIsSpace s = false -> firstIsSpace (trimRight s) = false.
Proof.
  destruct s as [ | c s ]; simpl; [ reflexivity | ]. intros Hc.
  destruct (trimRight s); simpl; rewrite ?Hc; simpl; try exact Hc; reflexivity.
Qed.

Lemma trimRight_last (s : string) : lastIsSpace (trimRight s) = false.
Proof.
  induction s as [ | c s IH ]; simpl; [ reflexivity | ].
  destruct (trimRight s) as [ | c' r ] eqn:Hr.
  - destruct (isSpace c) eqn:Hc; simpl; [ reflexivity | exact Hc ].
  - exact IH.
Qed.

Lemma trimRight_fixed (s : string) : lastIsSpace s = false -> trimRight s = s.
Proof.
  induction s as [ | c s IH ]; simpl; [ reflexivity | ].
  destruct s as [ | c' s' ].
  - intros ->. reflexivity.
  - intros H. rewrite (IH H). reflexivity.
Qed.

Lemma trimLeft_fixed (s : string) : firstIsSpace s = false -> trimLeft s = s.
Proof. destruct s as [ | c s ]; simpl; [ reflexivity | ]. intros ->. reflexivity. Qed.

Lemma trimLeft_allSpace (s : string) : allSpace s = true -> trimLeft s = "".
Proof.
  induction s as [ | c s IH ]; simpl; [ reflexivity | ].
  intros H. apply andb_true_iff in H as [-> Hs]. apply IH, Hs.
Qed.

Lemma trimRight_length (s : string) : String.length (trimRight s) <= String.length s.
Proof.
  induction s as [ | c s IH ]; simpl; [ lia | ].
  destruct (trimRight s) as [ | c' r ]; [ destruct (isSpace c) | ]; simpl in *; lia.
Qed.

Lemma trimLeft_length (s : string) : String.length (trimLeft s) <= String.length s.
Proof.
  induction s as [ | c s IH ]; simpl; [ lia | ].
  destruct (isSpace c); simpl; lia.
Qed.

(** [TrimSpace] returns a string that neither begins nor ends with white
    space and is no longer than its argument; it returns its argument when
    that neither begins nor ends with white space, and the empty string when
    the argument is white space only. *)
Theorem TrimSpace_strips_both_ends (s : string) :
  firstIsSpace (TrimSpace s) = false /\
  lastIsSpace (TrimSpace s) = false /\
  String.length (TrimSpace s) <= String.length s /\
  (firstIsSpace s = false -> lastIsSpace s = false -> TrimSpace s = s) /\
  (allSpace s = true -> TrimSpace s = "").
Proof.
  unfold TrimSpace. repeat split.
  - apply trimRight_first, trimLeft_first.
  - apply trimRight_last.
  - pose proof (trimRight_length (trimLeft s)). pose proof (trimLeft_length s). lia.
  - intros Hf Hl. rewrite (trimLeft_fixed s Hf). apply trimRight_fixed, Hl.
  - intros H. rewrite (trimLeft_allSpace s H). reflexivity.
Qed.

Lemma TrimSpace_strips_both_ends_witness :
  TrimSpace "A B" = "A B" /\ TrimSpace ("  " +:+ newline) = "".
Proof.
  split.
  - apply (TrimSpace_strips_both_ends "A B"); reflexivity.
  - apply (TrimSpace_strips_both_ends ("  " +:+ newline)). reflexivity.
Defined.

Lemma trimEach_Ret_inv (l : list Value) (acc r : list string) :
  trimEach l acc = Ret r ->
  exists ss, l = map VString ss /\ r = acc ++ map TrimSpace ss.
Proof.
  revert acc. induction l as [ | x l IH ]; intros acc; simpl.
  - intros [= <-]. exists []. rewrite app_nil_r. split; reflexivity.
  - destruct x; try discriminate. simpl. intros H.
    apply IH in H as (ss & -> & ->). exists (s :: ss).
    rewrite <- app_assoc. split; reflexivity.
Qed.

Lemma stringEach_Ret_inv (l : list Value) (acc r : list string) :
  stringEach l acc = Ret r ->
  exists ss, l = map VString ss /\ r = acc ++ ss.
Proof.
  revert acc. induction l as [ | x l IH ]; intros acc; simpl.
  - intros [= <-]. exists []. rewrite app_nil_r. split; reflexivity.
  - destruct x; try discriminate. simpl. intros H.
    apply IH in H as (ss & -> & ->). exists (s :: ss).
    rewrite <- app_assoc. split; reflexivity.
Qed.

(** X19: the loops over a [[]interface{}] of the decoder and of the create
    callback return exactly on a list of strings, which they trim,
    respectively copy, element by element in order; an element that is not a
    string makes them panic. *)
Theorem list_loops_need_strings (l : list Value) (r : list string) :
  (trimEach l [] = Ret r <-> exists ss, l = map VString ss /\ r = map TrimSpace ss) /\
  (stringEach l [] = Ret r <-> l = map VString r) /\
  (forallb isString l = false ->
   trimEach l [] = Panic "interface conversion: not a string" /\
   stringEach l [] = Panic "interface conversion: not a string").
Proof.
  split; [ | split ].
  - split.
    + intros H. apply trimEach_Ret_inv in H as (ss & -> & ->). eauto.
    + intros (ss & -> & ->). apply trimEach_map.
  - split.
    + intros H. apply stringEach_Ret_inv in H as (ss & -> & ->). reflexivity.
    + intros ->. apply stringEach_map.
  - intros H. split.
    + generalize (@nil string).
      induction l as [ | x l IH ]; [ discriminate | ].
      intros acc. simpl in H. destruct x; simpl; try reflexivity. apply IH. exact H.
    + generalize (@nil string).
      induction l as [ | x l IH ]; [ discriminate | ].
      intros acc. simpl in H. destruct x; simpl; try reflexivity. apply IH. exact H.
Qed.

Lemma list_loops_need_strings_witness :
  trimEach [VString "A"; VInt 1] [] = Panic "interface conversion: not a string" /\
  stringEach [VString "A"; VInt 1] [] = Panic "interface conversion: not a string".
Proof.
  apply (proj2 (proj2 (list_loops_need_strings [VString "A"; VInt 1] []))). reflexivity.
Defined.

(** ** Reading a JSON number *)

Lemma digitOf_bounds (c : ascii) (x : Z) : digitOf c = Some x -> (0 <= x <= 9)%Z.
Proof.
  unfold digitOf. destruct (_ && _)%bool eqn:H; [ | discriminate ].
  intros [= <-]. apply andb_true_iff in H as [H1 H2]. lia.
Qed.

Lemma parseDigits_nonneg (s : string) (acc n : Z) :
  (0 <= acc)%Z -> parseDigits s acc = Some n -> (0 <= n)%Z.
Proof.
  revert acc. induction s as [ | c s IH ]; intros acc Hacc; simpl.
  - intros [= <-]. exact Hacc.
  - destruct (digitOf c) as [ x | ] eqn:Hc; [ | discriminate ].
    apply digitOf_bounds in Hc. apply IH. lia.
Qed.

Lemma parseUnsigned_nonneg (s : string) (n : Z) : parseUnsigned s = Some n -> (0 <= n)%Z.
Proof.
  unfold parseUnsigned. destruct s; [ discriminate | ].
  apply parseDigits_nonneg. lia.
Qed.

Lemma parseDigits_decimal (u : Decimal.uint) (acc : Z) :
  parseDigits (DecimalString.NilEmpty.string_of_uint u) acc =
    Some (acc * 10 ^ Z.of_N (DecimalPos.Unsigned.usize u) + Z.of_N (DecimalPos.Unsigned.of_lu (Decimal.rev u)))%Z.
Proof.
  revert acc.
  induction u as [ | u IH | u IH | u IH | u IH | u IH | u IH | u IH | u IH | u IH | u IH ];
    intros acc;
    [ simpl; f_equal; lia | .. ];
    cbn [DecimalString.NilEmpty.string_of_uint parseDigits];
    match goal with
    | |- context [ digitOf ?c ] =>
        let v := eval vm_compute in (digitOf c) in change (digitOf c) with v
    end;
    cbv iota beta;
    unfold Decimal.rev; cbn [Decimal.revapp];
    rewrite DecimalPos.Unsigned.of_lu_revapp; fold (Decimal.rev u);
    rewrite IH; f_equal;
    cbn [DecimalPos.Unsigned.usize DecimalPos.Unsigned.of_lu];
    rewrite N2Z.inj_add, N2Z.inj_mul, N2Z.inj_pow, N2Z.inj_succ;
    rewrite Z.pow_succ_r by lia; cbn [Z.of_N N.mul N.add Pos.mul Pos.add]; lia.
Qed.

Lemma parseUnsigned_decimal (p : positive) :
  parseUnsigned (DecimalString.NilEmpty.string_of_uint (Pos.to_uint p)) = Some (Z.pos p).
Proof.
  unfold parseUnsigned.
  destruct (DecimalString.NilEmpty.string_of_uint (Pos.to_uint p)) eqn:Hs.
  - pose proof (DecimalPos.Unsigned.to_uint_nonnil p) as Hnil.
    destruct (Pos.to_uint p); try discriminate Hs. contradiction.
  - rewrite <- Hs, parseDigits_decimal, <- DecimalPos.Unsigned.of_uint_alt, DecimalPos.Unsigned.of_to.
    f_equal.
Qed.

Lemma Int64_digits (u : Decimal.uint) :
  u <> Decimal.Nil ->
  Int64 (DecimalString.NilEmpty.string_of_uint u) =
    match parseUnsigned (DecimalString.NilEmpty.string_of_uint u) with
    | None => 0%Z
    | Some un => if (2 ^ 63 <=? un)%Z then (2 ^ 63 - 1)%Z else un
    end.
Proof.
  intros Hne. destruct u; try contradiction; reflexivity.
Qed.

Lemma Int64_minus (s : string) :
  Int64 (String "-" s) =
    match parseUnsigned s with
    | None => 0%Z
    | Some un => if (2 ^ 63 <? un)%Z then (- 2 ^ 63)%Z else (- un)%Z
    end.
Proof. reflexivity. Qed.

Lemma string_of_uint_nonnil (u : Decimal.uint) :
  u <> Decimal.Nil -> DecimalString.NilZero.string_of_uint u = DecimalString.NilEmpty.string_of_uint u.
Proof. destruct u; try contradiction; reflexivity. Qed.

(** [Int64] always yields a 64-bit integer. It reads the decimal text of
    every 64-bit integer back as that integer, and the decimal text of an
    integer beyond the 64-bit range as the nearest bound. *)
Theorem Int64_reads_decimal_text :
  (forall n : string, (- 2 ^ 63 <= Int64 n <= 2 ^ 63 - 1)%Z) /\
  (forall z : Z, (- 2 ^ 63 <= z <= 2 ^ 63 - 1)%Z -> Int64 (decimal z) = z) /\
  (forall z : Z, (2 ^ 63 <= z)%Z -> Int64 (decimal z) = (2 ^ 63 - 1)%Z) /\
  (forall z : Z, (z < - 2 ^ 63)%Z -> Int64 (decimal z) = (- 2 ^ 63)%Z).
Proof.
  assert (Hpos : forall p, Int64 (decimal (Z.pos p)) =
                   if (2 ^ 63 <=? Z.pos p)%Z then (2 ^ 63 - 1)%Z else Z.pos p).
  { intros p. unfold decimal. cbn [Z.to_int DecimalString.NilZero.string_of_int].
    rewrite string_of_uint_nonnil by apply DecimalPos.Unsigned.to_uint_nonnil.
    rewrite Int64_digits by apply DecimalPos.Unsigned.to_uint_nonnil.
    rewrite parseUnsigned_decimal. reflexivity. }
  assert (Hneg : forall p, Int64 (decimal (Z.neg p)) =
                   if (2 ^ 63 <? Z.pos p)%Z then (- 2 ^ 63)%Z else Z.neg p).
  { intros p. unfold decimal. cbn [Z.to_int DecimalString.NilZero.string_of_int].
    rewrite string_of_uint_nonnil by apply DecimalPos.Unsigned.to_uint_nonnil.
    rewrite Int64_minus, parseUnsigned_decimal. reflexivity. }
  split; [ | split; [ | split ] ].
  - intros n. unfold Int64.
    destruct (match n with
              | String "+" s' => (false, s')
              | String "-" s' => (true, s')
              | _ => (false, n)
              end) as [neg body].
    destruct (parseUnsigned body) as [ un | ] eqn:Hun; [ | lia ].
    apply parseUnsigned_nonneg in Hun.
    destruct neg; cbn [negb andb].
    + destruct (Z.ltb_spec (2 ^ 63) un); lia.
    + destruct (Z.leb_spec (2 ^ 63) un); lia.
  - intros [ | p | p ] Hz.
    + reflexivity.
    + rewrite Hpos. destruct (Z.leb_spec (2 ^ 63) (Z.pos p)); [ lia | reflexivity ].
    + rewrite Hneg. destruct (Z.ltb_spec (2 ^ 63) (Z.pos p)); [ lia | reflexivity ].
  - intros [ | p | p ] Hz; try lia.
    rewrite Hpos. destruct (Z.leb_spec (2 ^ 63) (Z.pos p)); [ reflexivity | lia ].
  - intros [ | p | p ] Hz; try lia.
    rewrite Hneg. destruct (Z.ltb_spec (2 ^ 63) (Z.pos p)); [ reflexivity | lia ].
Qed.

Lemma Int64_reads_decimal_text_witness :
  Int64 (decimal (-42)) = (-42)%Z /\
  Int64 (decimal (2 ^ 63)) = (2 ^ 63 - 1)%Z /\
  Int64 (decimal (- 2 ^ 63 - 1)) = (- 2 ^ 63)%Z.
Proof.
  destruct Int64_reads_decimal_text as (_ & Hin & Hhigh & Hlow).
  split; [ apply Hin; lia | split; [ apply Hhigh; lia | apply Hlow; lia ] ].
Defined.

(** ** Lengths are sent as 32-bit numbers *)

(** X20: the create callback sends a configured minimum login name length or
    minimum password length reduced modulo 2^32: a length between 0 and 2^32 -
    1 is sent as it is, any other one wraps around to a number in that range. *)
Theorem create_sends_lengths_modulo_2_32
    (d : ResourceData) (opts : list authmethods.Option) (i : Z) :
  resourceAuthMethodCreate_options d authmethodTypePassword = Ret (Some opts) ->
  i <> 0%Z ->
  (0 <= uint32 i < 2 ^ 32)%Z /\
  ((0 <= i < 2 ^ 32)%Z -> uint32 i = i) /\
  (Get d authmethodMinLoginNameLengthKey = VInt i ->
   In (authmethods.WithPasswordAuthMethodMinLoginNameLength (uint32 i)) opts) /\
  (Get d authmethodMinPasswordLengthKey = VInt i ->
   In (authmethods.WithPasswordAuthMethodMinPasswordLength (uint32 i)) opts).
Proof.
  intros H Hi. split; [ | split; [ | split ] ].
  - unfold uint32. apply Z.mod_pos_bound. lia.
  - intros Hrange. unfold uint32. apply Z.mod_small. exact Hrange.
  - intros Hget. apply create_options_inv in H as (opts0 & opts1 & Hsw & Hname & Hdesc).
    unfold resourceAuthMethodCreate_switch in Hsw.
    change (String.eqb authmethodTypePassword authmethodTypePassword) with true in Hsw.
    cbv iota in Hsw. invert_chain Hsw. injection Hsw as <-.
    repeat first
      [ solve [ eapply withIfSet_emits;
                [ eassumption | rewrite Hget; apply isZero_int, Hi
                | rewrite Hget; reflexivity ] ]
      | climb_withIfSet ].
  - intros Hget. apply create_options_inv in H as (opts0 & opts1 & Hsw & Hname & Hdesc).
    unfold resourceAuthMethodCreate_switch in Hsw.
    change (String.eqb authmethodTypePassword authmethodTypePassword) with true in Hsw.
    cbv iota in Hsw. invert_chain Hsw. injection Hsw as <-.
    repeat first
      [ solve [ eapply withIfSet_emits;
                [ eassumption | rewrite Hget; apply isZero_int, Hi
                | rewrite Hget; reflexivity ] ]
      | climb_withIfSet ].
Qed.

Lemma create_sends_lengths_modulo_2_32_witness :
  In (authmethods.WithPasswordAuthMethodMinLoginNameLength 4294967295)
     [authmethods.WithPasswordAuthMethodMinLoginNameLength 4294967295].
Proof.
  apply (proj1 (proj2 (proj2 (create_sends_lengths_modulo_2_32 negativeLengthConfig
                                [authmethods.WithPasswordAuthMethodMinLoginNameLength 4294967295]
                                (-1) ltac:(vm_compute; reflexivity) ltac:(discriminate))))).
  reflexivity.
Defined.

(** ** The schema *)

(** X21: in the schema of the resource the scope id and the type are the only
    required keys and the only keys that force a new resource; the id is the
    only computed top-level key, and no top-level key is both required and
    optional. *)
Theorem schema_immutable_keys (k : string) (s : Schema) :
  schema_lookup resourceAuthMethod_Schema k = Some s ->
  (schemaForceNew s = true <-> k = ScopeIdKey \/ k = TypeKey) /\
  (schemaRequired s = true <-> k = ScopeIdKey \/ k = TypeKey) /\
  (match s with mkSchema _ _ _ computed _ _ => computed end = true <-> k = IDKey) /\
  (match s with mkSchema _ optional required _ _ _ => optional && required end = false).
Proof.
  unfold resourceAuthMethod_Schema. cbn [schema_lookup].
  repeat match goal with
    | |- (if String.eqb ?a k then _ else _) = _ -> _ =>
        destruct (String.eqb_spec a k) as [ <- | ? ];
        [ intros [= <-]; cbn;
          repeat split; try discriminate; try reflexivity; try tauto;
          intros [ Hk | Hk ]; discriminate Hk | ]
    end.
  discriminate.
Qed.

Lemma schema_immutable_keys_witness :
  schemaForceNew (mkSchema TypeString false true false true []) = true <->
  ScopeIdKey = ScopeIdKey \/ ScopeIdKey = TypeKey.
Proof.
  apply (schema_immutable_keys ScopeIdKey (mkSchema TypeString false true false true [])).
  reflexivity.
Defined.

(** * Properties of the test checks *)

Lemma notA404_false (err : option error) :
  notA404 err = false <-> exists e, err = Some e /\ StatusCode e = StatusNotFound.
Proof.
  unfold notA404. destruct err as [ e | ].
  - rewrite negb_false_iff, Z.eqb_eq. split.
    + intros H. eauto.
    + intros (e' & [= <-] & H). exact H.
  - split; [ discriminate | intros (e & He & _); discriminate He ].
Qed.

(** X22: the destroy check passes exactly when every primary auth method
    binding of the state reads with a 404 error; a read that succeeds or fails
    in another way fails the check, and resources of other types are not read.
    Whether it passes does not depend on the order in which the loop meets the
    resources. *)
Theorem destroy_check_passes_iff_all_gone (scp : ScopesClient) (resources : list ResourceState) :
  (testAccCheckPrimaryAuthMethodResourceDestroy scp resources = None <->
   Forall (fun rs =>
             Type_ rs = "boundary_scope_primary_auth_method" ->
             exists e, snd (scp (ID (Primary rs))) = Some e /\ StatusCode e = StatusNotFound)
     resources) /\
  (forall resources', Permutation resources resources' ->
     (testAccCheckPrimaryAuthMethodResourceDestroy scp resources = None <->
      testAccCheckPrimaryAuthMethodResourceDestroy scp resources' = None)).
Proof.
  assert (Hiff : forall l,
    testAccCheckPrimaryAuthMethodResourceDestroy scp l = None <->
    Forall (fun rs =>
              Type_ rs = "boundary_scope_primary_auth_method" ->
              exists e, snd (scp (ID (Primary rs))) = Some e /\ StatusCode e = StatusNotFound)
      l).
  { induction l as [ | rs l IH ]; cbn [testAccCheckPrimaryAuthMethodResourceDestroy].
    - split; [ constructor | reflexivity ].
    - destruct (String.eqb_spec (Type_ rs) "boundary_scope_primary_auth_method") as [ Hty | Hty ].
      + destruct (scp (ID (Primary rs))) as [r err] eqn:Hread.
        destruct (notA404 err) eqn:H404.
        * split; [ discriminate | ].
          intros Hall. apply Forall_cons in Hall as [Hrs _].
          specialize (Hrs Hty). rewrite Hread in Hrs. cbn [snd] in Hrs.
          apply notA404_false in Hrs. congruence.
        * rewrite IH. split.
          -- intros Hall. constructor; [ | exact Hall ].
             intros _. rewrite Hread. cbn [snd]. apply notA404_false. exact H404.
          -- intros Hall. apply Forall_cons in Hall as [_ Hall]. exact Hall.
      + rewrite IH. split.
        * intros Hall. constructor; [ | exact Hall ]. intros Heq. contradiction.
        * intros Hall. apply Forall_cons in Hall as [_ Hall]. exact Hall. }
  split; [ apply Hiff | ].
  intros resources' Hperm. rewrite !Hiff. split; intros Hall.
  - rewrite <- Hperm. exact Hall.
  - rewrite Hperm. exact Hall.
Qed.

Lemma destroy_check_passes_iff_all_gone_witness :
  testAccCheckPrimaryAuthMethodResourceDestroy goneScopes [scopeState; bindingState] = None <->
  testAccCheckPrimaryAuthMethodResourceDestroy goneScopes [bindingState; scopeState] = None.
Proof.
  apply (proj2 (destroy_check_passes_iff_all_gone goneScopes [scopeState; bindingState])).
  apply perm_swap.
Defined.

Lemma eqb_empty_false (s : string) : String.eqb s "" = false <-> s <> "".
Proof. apply String.eqb_neq. Qed.

Lemma exists_check_inv
    (authMethodIdKey : string) (scpClient : ScopesClient) (resourceName : string)
    (resources : gmap string ResourceState) :
  testCheckScopePrimaryAuthMethodResourceExists authMethodIdKey scpClient resourceName resources = Ret None ->
  exists rs item,
    resources !! resourceName = Some rs /\
    ID (Primary rs) <> "" /\
    attribute (Attributes (Primary rs)) authMethodIdKey <> "" /\
    scpClient (ID (Primary rs)) = (Some item, None) /\
    PrimaryAuthMethodId item = attribute (Attributes (Primary rs)) authMethodIdKey.
Proof.
  unfold testCheckScopePrimaryAuthMethodResourceExists.
  destruct (resources !! resourceName) as [ rs | ]; [ | discriminate ].
  destruct (String.eqb_spec (ID (Primary rs)) "") as [ | Hid ]; [ discriminate | ].
  destruct (String.eqb_spec (attribute (Attributes (Primary rs)) authMethodIdKey) "")
    as [ | Hattr ]; [ discriminate | ].
  destruct (scpClient (ID (Primary rs))) as [ [ item | ] [ e | ] ] eqn:Hread;
    try discriminate.
  destruct (String.eqb_spec (PrimaryAuthMethodId item)
              (attribute (Attributes (Primary rs)) authMethodIdKey)) as [ Heq | ];
    [ | discriminate ].
  intros _. exists rs, item. repeat split; assumption.
Qed.

(** X23: the exists check passes exactly when the state has the named resource
    with a non-empty id and a non-empty auth method id attribute, the scope of
    that id is read without error, and the primary auth method id of the scope
    is that attribute. *)
Theorem exists_check_passes_iff_bound
    (authMethodIdKey : string) (scpClient : ScopesClient) (resourceName : string)
    (resources : gmap string ResourceState) :
  testCheckScopePrimaryAuthMethodResourceExists authMethodIdKey scpClient resourceName resources = Ret None <->
  exists rs item,
    resources !! resourceName = Some rs /\
    ID (Primary rs) <> "" /\
    attribute (Attributes (Primary rs)) authMethodIdKey <> "" /\
    scpClient (ID (Primary rs)) = (Some item, None) /\
    PrimaryAuthMethodId item = attribute (Attributes (Primary rs)) authMethodIdKey.
Proof.
  split; [ apply exists_check_inv | ].
  intros (rs & item & Hrs & Hid & Hattr & Hread & Heq).
  unfold testCheckScopePrimaryAuthMethodResourceExists. rewrite Hrs.
  apply String.eqb_neq in Hid, Hattr. rewrite Hid, Hattr, Hread, Heq.
  rewrite String.eqb_refl. reflexivity.
Qed.

Lemma exists_check_passes_iff_bound_witness :
  testCheckScopePrimaryAuthMethodResourceExists "auth_method_id" boundScopes "binding"
    {[ "binding" := bindingState ]} = Ret None.
Proof.
  apply (proj2 (exists_check_passes_iff_bound "auth_method_id" boundScopes "binding"
                  {[ "binding" := bindingState ]})).
  exists bindingState, (mkScope "ampw_1"). repeat split; try discriminate.
Defined.

(** X24: the unset check passes exactly when the state has the named resource
    with a non-empty id and the scope of that id is read without error and
    with an empty primary auth method id. It can therefore not pass on a scope
    on which the exists check passes. *)
Theorem unset_check_passes_iff_unbound
    (scpClient : ScopesClient) (resourceName : string) (resources : gmap string ResourceState) :
  (testCheckOldScopePrimaryAuthMethodResourceUnset scpClient resourceName resources = Ret None <->
   exists rs item,
     resources !! resourceName = Some rs /\
     ID (Primary rs) <> "" /\
     scpClient (ID (Primary rs)) = (Some item, None) /\
     PrimaryAuthMethodId item = "") /\
  (forall authMethodIdKey bindingName rs rs',
     testCheckOldScopePrimaryAuthMethodResourceUnset scpClient resourceName resources = Ret None ->
     testCheckScopePrimaryAuthMethodResourceExists authMethodIdKey scpClient bindingName resources =
       Ret None ->
     resources !! resourceName = Some rs ->
     resources !! bindingName = Some rs' ->
     ID (Primary rs) <> ID (Primary rs')).
Proof.
  assert (Hiff :
    testCheckOldScopePrimaryAuthMethodResourceUnset scpClient resourceName resources = Ret None <->
    exists rs item,
      resources !! resourceName = Some rs /\
      ID (Primary rs) <> "" /\
      scpClient (ID (Primary rs)) = (Some item, None) /\
      PrimaryAuthMethodId item = "").
  { unfold testCheckOldScopePrimaryAuthMethodResourceUnset. split.
    - destruct (resources !! resourceName) as [ rs | ]; [ | discriminate ].
      destruct (String.eqb_spec (ID (Primary rs)) "") as [ | Hid ]; [ discriminate | ].
      destruct (scpClient (ID (Primary rs))) as [ [ item | ] [ e | ] ] eqn:Hread;
        try discriminate.
      destruct (String.eqb_spec (PrimaryAuthMethodId item) "") as [ Heq | ];
        [ | discriminate ].
      intros _. exists rs, item. repeat split; assumption.
    - intros (rs & item & -> & Hid & Hread & Heq).
      apply String.eqb_neq in Hid. rewrite Hid, Hread, Heq. reflexivity. }
  split; [ exact Hiff | ].
  intros authMethodIdKey bindingName rs rs' Hunset Hexists Hrs Hrs' Hsame.
  apply Hiff in Hunset as (rs1 & item1 & H1 & _ & Hread1 & Hempty).
  apply exists_check_inv in Hexists as (rs2 & item2 & H2 & _ & Hattr & Hread2 & Hbound).
  rewrite Hrs in H1. injection H1 as <-. rewrite Hrs' in H2. injection H2 as <-.
  rewrite Hsame, Hread2 in Hread1. injection Hread1 as <-. congruence.
Qed.

Lemma unset_check_passes_iff_unbound_witness :
  testCheckOldScopePrimaryAuthMethodResourceUnset (fun _ => (Some (mkScope ""), None)) "scope"
    {[ "scope" := scopeState ]} = Ret None.
Proof.
  apply (proj2 (proj1 (unset_check_passes_iff_unbound (fun _ => (Some (mkScope ""), None))
                         "scope" {[ "scope" := scopeState ]}))).
  exists scopeState, (mkScope ""). repeat split; try discriminate.
Defined.

(** ** What a successful update writes *)








